(** * GafferVDB::VDBObject: a collection of named OpenVDB grids

    Shallow embedding of [src/GafferVDB/VDBObject.cpp].

    The class is a thin adapter over libraries whose code is not part of the
    repository.  Each of them is an interface here (a type class), so that
    every theorem holds for whatever the library does:
    - OpenVDB: the grid type [openvdb::GridBase] and its methods;
    - IECore: the base class [VisibleRenderable] and [MurmurHash];
    - Boost.Iostreams: the stream that sits between a writer and a sink;
    - the floating point types of the bounding boxes, and the largest size
      of a [std::vector].

    Grids are held through [openvdb::GridBase::Ptr], a shared pointer: the
    same grid may sit in several collections, and [std::vector]'s [==]
    compares the pointers.  So grids live in a heap and a collection is a
    list of addresses.  The object the methods run on ([*this]) is part of
    the state; the other object of [isEqualTo] and [copyFrom] is a value
    (for [copyFrom], an object other than [*this]). *)

From Stdlib Require Import ZArith String List Strings.Byte.
From stdpp Require Import base option list gmap strings.

Local Open Scope Z_scope.

(** ** Outside the class: metadata, messages, exceptions *)

Record Vec3 (A : Type) := mkVec3 { vx : A; vy : A; vz : A }.
Arguments mkVec3 {A} _ _ _.
Arguments vx {A} _.
Arguments vy {A} _.
Arguments vz {A} _.

Definition Vec3_map {A B} (f : A -> B) (v : Vec3 A) : Vec3 B :=
  mkVec3 (f (vx v)) (f (vy v)) (f (vz v)).

Definition Vec3_zip {A B C} (f : A -> B -> C) (v : Vec3 A) (w : Vec3 B) : Vec3 C :=
  mkVec3 (f (vx v) (vx w)) (f (vy v) (vy w)) (f (vz v) (vz w)).

(** [openvdb::Metadata]: the four typed classes the source casts to, and any
    other subclass, which reports a type name of its own. *)
Inductive Metadata :=
| StringMetadata (value : string)     (* TypedMetadata<openvdb::Name> *)
| Int64Metadata (value : Z)           (* TypedMetadata<openvdb::Int64> *)
| BoolMetadata (value : bool)         (* TypedMetadata<bool> *)
| Vec3IMetadata (value : Vec3 Z)      (* TypedMetadata<openvdb::math::Vec3i> *)
| OtherMetadata (type : string) (str : string).

Definition typeName (m : Metadata) : string :=
  match m with
  | StringMetadata _ => "string"
  | Int64Metadata _ => "int64"
  | BoolMetadata _ => "bool"
  | Vec3IMetadata _ => "vec3i"
  | OtherMetadata type _ => type
  end.

(** The members of the [IECore::CompoundObject] that [metadata] builds. *)
Inductive Data :=
| StringData (value : string)
| Int64Data (value : Z)
| BoolData (value : bool)
| V3iData (value : Vec3 Z).

Inductive Level := Error | Warning | Info | Debug.

Record Message := msg { level : Level; context : string; text : string }.

Inductive Exception :=
| LookupError (what : string)               (* openvdb::LookupError *)
| TypeError (what : string)                 (* openvdb::TypeError *)
| length_error (what : string)              (* std::length_error *)
| NotImplementedException (what : string)   (* IECore::NotImplementedException *)
| HostException (what : string).            (* raised inside the base class *)

(** Address of a grid; a [GridBase::Ptr] is an address or null. *)
Abbreviation addr := positive.
Abbreviation GridPtr := (option positive).

(** [IECore::Object] as the methods receive it through [const Object *other]:
    a [VDBObject] with its base-class part and its grid pointers, or an
    object of some other concrete kind. *)
Inductive ObjectOf (B F : Type) :=
| aVDBObject (parent : B) (grids : list addr)
| anotherObject (f : F).
Arguments aVDBObject {B F} _ _.
Arguments anotherObject {B F} _.

(** [runTimeCast<const VDBObject>( other )] *)
Definition runTimeCast {B F} (other : ObjectOf B F) : option (B * list addr) :=
  match other with
  | aVDBObject b grids => Some (b, grids)
  | anotherObject _ => None
  end.

(** ** The libraries *)

Class Floating := {
  float32 : Type;
  float64 : Type;
  float_lt : float32 -> float32 -> bool;       (* operator< *)
  float_max : float32;                         (* Imath::limits<float>::max() *)
  float_lowest : float32;                      (* Imath::limits<float>::min() *)
  float_half : float32;                        (* the literal 0.50f *)
  double_of_float : float32 -> float64;
  float_of_double : float64 -> float32;
  double_of_int : Z -> float64;
  double_add : float64 -> float64 -> float64;
  double_sub : float64 -> float64 -> float64;
}.

Record BBox (A : Type) := mkBBox { bbmin : Vec3 A; bbmax : Vec3 A }.
Arguments mkBBox {A} _ _.
Arguments bbmin {A} _.
Arguments bbmax {A} _.

Class OpenVDB `{Floating} := {
  Grid : Type;                                     (* openvdb::GridBase *)
  getName : Grid -> string;
  metaMap : Grid -> gmap string Metadata;          (* beginMeta() .. endMeta() *)
  addStatsMetadata : Grid -> Grid;
  readNonresidentBuffers : Grid -> Grid;
  indexToWorld : Grid -> BBox float64 -> BBox float64;   (* transform().indexToWorld *)
  writeTopology : Grid -> list byte;
  writeBuffers : Grid -> list byte;
  writeTransform : Grid -> list byte;
  deepCopyGrid : Grid -> Grid;
  Stream_write : list Grid -> list byte;           (* io::Stream( os ).write( grids ) *)
  META_FILE_BBOX_MIN : string;
  META_FILE_BBOX_MAX : string;
}.

Class IECore := {
  Base : Type;          (* what the VisibleRenderable part of an object holds *)
  Foreign : Type;       (* objects of the other concrete kinds *)
  MurmurHash : Type;
  CopyContext : Type;
  SaveContext : Type;
  LoadContext : Type;
  Host : Type;          (* what the base class reaches through the contexts *)
  MurmurHash_new : MurmurHash;                                      (* MurmurHash() *)
  MurmurHash_append : MurmurHash -> list byte -> MurmurHash;        (* append( const char *, n ) *)
  MurmurHash_appendHash : MurmurHash -> MurmurHash -> MurmurHash;   (* append( const MurmurHash & ) *)
  VisibleRenderable_isNotEqualTo : Base -> ObjectOf Base Foreign -> bool;
  VisibleRenderable_hash : Base -> MurmurHash -> MurmurHash;
  VisibleRenderable_copyFrom :
    ObjectOf Base Foreign -> CopyContext -> Base -> Host -> Base * Host;
  VisibleRenderable_save : Base -> SaveContext -> Host -> Exception + Host;
  VisibleRenderable_load : LoadContext -> Base -> Host -> Exception + Base * Host;
}.

Abbreviation Object := (ObjectOf Base Foreign).

(** [boost::iostreams::stream<Sink>]: the pieces in which the bytes written
    to the stream are handed to [Sink::write].
    - [hashStream_delivered writes]: the calls that have reached the local
      variable [sink] of [hash] when [h.append( sink.hash )] runs;
    - [memoryStream_delivered bytes]: the calls that have reached the storage
      of the buffer when [memoryBuffer] has returned. *)
Class IOStreams := {
  hashStream_delivered : list (list byte) -> list (list byte);
  memoryStream_delivered : list byte -> list (list byte);
}.

(** [std::vector<unsigned char>::max_size()], and the conversion of the
    [int64_t] estimate to the [size_t] that [reserve] takes. *)
Class Platform := {
  max_size : Z;
}.

Definition to_size_t (z : Z) : Z := z mod 2 ^ 64.

(** [int64_t] addition, two's complement. *)
Definition int64_add (a b : Z) : Z := (a + b + 2 ^ 63) mod 2 ^ 64 - 2 ^ 63.

Section VDBObject.

Context `{!Floating, !OpenVDB, !IECore, !IOStreams, !Platform}.

(** ** State and the monad of the methods *)

Record State := mkState {
  heap : gmap addr Grid;       (* the grids that GridBase::Ptr values point to *)
  parent : Base;               (* the VisibleRenderable part of *this *)
  m_grids : list addr;         (* *m_grids *)
  messages : list Message;     (* what IECore::msg has been given *)
  host : Host;
}.

Definition set_heap (h : gmap addr Grid) (s : State) : State :=
  mkState h (parent s) (m_grids s) (messages s) (host s).
Definition set_parent (b : Base) (s : State) : State :=
  mkState (heap s) b (m_grids s) (messages s) (host s).
Definition set_m_grids (l : list addr) (s : State) : State :=
  mkState (heap s) (parent s) l (messages s) (host s).
Definition set_messages (l : list Message) (s : State) : State :=
  mkState (heap s) (parent s) (m_grids s) l (host s).
Definition set_host (x : Host) (s : State) : State :=
  mkState (heap s) (parent s) (m_grids s) (messages s) x.

(** A call returns, throws, or has undefined behaviour ([Fault]: a null or
    dangling pointer was dereferenced). *)
Inductive Result (A : Type) :=
| Ok (a : A) (s : State)
| Throw (e : Exception) (s : State)
| Fault.
Arguments Ok {A} _ _.
Arguments Throw {A} _ _.
Arguments Fault {A}.

Definition M (A : Type) : Type := State -> Result A.

#[global] Instance M_ret : MRet M := fun A a s => Ok a s.
#[global] Instance M_bind : MBind M := fun A B f m s =>
  match m s with
  | Ok a s' => f a s'
  | Throw e s' => Throw e s'
  | Fault => Fault
  end.

Definition get : M State := fun s => Ok s s.
Definition modify (f : State -> State) : M unit := fun s => Ok tt (f s).
Definition throw {A} (e : Exception) : M A := fun s => Throw e s.
Definition fault {A} : M A := fun _ => Fault.

(** [*grid] for a pointer held in a vector *)
Definition deref (a : addr) : M Grid := fun s =>
  match heap s !! a with
  | Some g => Ok g s
  | None => Fault
  end.

(** [*grid] for a [GridBase::Ptr] that may be null *)
Definition deref_ptr (p : GridPtr) : M (addr * Grid) :=
  match p with
  | Some a => g ← deref a; mret (a, g)
  | None => fault
  end.

(** A new grid object *)
Definition alloc (g : Grid) : M addr := fun s =>
  let a := fresh (dom (heap s)) in
  Ok a (set_heap (<[a := g]> (heap s)) s).

(** [IECore::msg( level, context, text )] *)
Definition IECore_msg (l : Level) (c t : string) : M unit :=
  modify (fun s => set_messages (messages s ++ [msg l c t]) s).

(** The object [*this], as another method would receive it. *)
Definition this (s : State) : Object := aVDBObject (parent s) (m_grids s).

(** ** The constructor [VDBObject()] *)

Definition VDBObject_new (h : gmap addr Grid) (b : Base) (l : list Message) (x : Host) : State :=
  mkState h b [] l x.

(** ** [findGrid], [gridNames], [insertGrid], [removeGrid] *)

Fixpoint findGrid_loop (name : string) (grids : list addr) : M GridPtr :=
  match grids with
  | [] => mret None
  | grid :: rest =>
      g ← deref grid;
      if decide (getName g = name) then mret (Some grid)
      else findGrid_loop name rest
  end.

Definition findGrid (name : string) : M GridPtr :=
  s ← get; findGrid_loop name (m_grids s).

Fixpoint gridNames_loop (grids : list addr) (outputGridNames : list string)
  : M (list string) :=
  match grids with
  | [] => mret outputGridNames
  | grid :: rest =>
      g ← deref grid;
      gridNames_loop rest (outputGridNames ++ [getName g])
  end.

Definition gridNames : M (list string) :=
  s ← get; gridNames_loop (m_grids s) [].

(** The loop of [removeGrid]: the vector once the first grid of that name,
    if there is one, has been erased. *)
Fixpoint removeGrid_loop (name : string) (grids : list addr) : M (list addr) :=
  match grids with
  | [] => mret []
  | it :: rest =>
      g ← deref it;
      if decide (getName g = name) then mret rest
      else rest' ← removeGrid_loop name rest; mret (it :: rest')
  end.

Definition removeGrid (name : string) : M unit :=
  s ← get;
  grids ← removeGrid_loop name (m_grids s);
  modify (set_m_grids grids).

Definition push_back (grid : addr) : M unit :=
  modify (fun s => set_m_grids (m_grids s ++ [grid]) s).

Definition insertGrid (grid : GridPtr) : M unit :=
  '(a, g) ← deref_ptr grid;
  removeGrid (getName g);;
  push_back a.

(** ** [bound] *)

(** [MetaMap::metaValue<T>( name )] of OpenVDB: [LookupError] when the grid
    has no entry of that name, [TypeError] when the entry is not a
    [TypedMetadata<T>]. *)
Definition metaValue_Vec3i (g : Grid) (name : string) : Exception + Vec3 Z :=
  match metaMap g !! name with
  | None => inl (LookupError name)
  | Some (Vec3IMetadata v) => inr v
  | Some _ => inl (TypeError name)
  end.

Definition metaValue_int64 (g : Grid) (name : string) : Exception + Z :=
  match metaMap g !! name with
  | None => inl (LookupError name)
  | Some (Int64Metadata v) => inr v
  | Some _ => inl (TypeError name)
  end.

Definition lift {A} (r : Exception + A) : M A :=
  match r with
  | inl e => throw e
  | inr a => mret a
  end.

(** [Imath::Box3f]: the default constructor makes the box empty. *)
Definition Box_empty : BBox float32 :=
  mkBBox (mkVec3 float_max float_max float_max)
         (mkVec3 float_lowest float_lowest float_lowest).

(** [Imath::Box::extendBy( const Box & )], one coordinate at a time:
    [if( box.min[i] < min[i] ) min[i] = box.min[i];]
    [if( box.max[i] > max[i] ) max[i] = box.max[i];] *)
Definition extend_min (cur new : float32) : float32 :=
  if float_lt new cur then new else cur.
Definition extend_max (cur new : float32) : float32 :=
  if float_lt cur new then new else cur.

Definition extendBy (this_box box : BBox float32) : BBox float32 :=
  mkBBox (Vec3_zip extend_min (bbmin this_box) (bbmin box))
         (Vec3_zip extend_max (bbmax this_box) (bbmax box)).

(** [worldBound<float>( grid, padding )]; the two reads of the metadata
    throw when the entry is missing. *)
Definition worldBound (g : Grid) (padding : float32) : Exception + BBox float32 :=
  match metaValue_Vec3i g META_FILE_BBOX_MIN with
  | inl e => inl e
  | inr min =>
      match metaValue_Vec3i g META_FILE_BBOX_MAX with
      | inl e => inl e
      | inr max =>
          let offset := double_of_float padding in
          let offset := mkVec3 offset offset offset in
          let indexBounds :=
            mkBBox (Vec3_zip double_sub (Vec3_map double_of_int min) offset)
                   (Vec3_zip double_add (Vec3_map double_of_int max) offset) in
          let worldBounds := indexToWorld g indexBounds in
          let minBB := bbmin worldBounds in
          let maxBB := bbmax worldBounds in
          inr (mkBBox (Vec3_map float_of_double minBB)
                      (Vec3_map float_of_double maxBB))
      end
  end.

Fixpoint bound_loop (grids : list addr) (combinedBounds : BBox float32)
  : M (BBox float32) :=
  match grids with
  | [] => mret combinedBounds
  | grid :: rest =>
      g ← deref grid;
      gridBounds ← lift (worldBound g float_half);
      bound_loop rest (extendBy combinedBounds gridBounds)
  end.

Definition bound : M (BBox float32) :=
  s ← get; bound_loop (m_grids s) Box_empty.

(** ** [render] *)

Definition render : M unit := mret tt.

(** ** [memoryBuffer] *)

(** [IECore::UCharVectorData]: the bytes, and what [reserve] was asked for. *)
Record UCharVectorData := mkBuffer { reserved : Z; readable : list byte }.

(** [UCharVectorDataSink::write] *)
Definition UCharVectorDataSink_write (m_storage : UCharVectorData) (s : list byte)
  : UCharVectorData :=
  mkBuffer (reserved m_storage) (readable m_storage ++ s).

(** [std::vector::reserve( n )] with [n] an [int64_t] converted to [size_t]:
    [std::length_error] beyond [max_size()].  (Running out of memory is not
    modelled.) *)
Definition reserve (v : UCharVectorData) (n : Z) : M UCharVectorData :=
  if decide (max_size < to_size_t n) then throw (length_error "vector::reserve")
  else mret (mkBuffer (Z.max (reserved v) (to_size_t n)) (readable v)).

(** The [try] block: the loop stops at the first grid whose
    ["file_mem_bytes"] cannot be read, and [totalSizeBytes] keeps what has
    been added so far; the exception goes to the handler. *)
Fixpoint memoryBuffer_try (grids : list addr) (totalSizeBytes : Z)
  : M (Z * option Exception) :=
  match grids with
  | [] => mret (totalSizeBytes, None)
  | grid :: rest =>
      g ← deref grid;
      match metaValue_int64 g "file_mem_bytes" with
      | inl e => mret (totalSizeBytes, Some e)
      | inr bytes => memoryBuffer_try rest (int64_add totalSizeBytes bytes)
      end
  end.

Fixpoint deref_all (grids : list addr) : M (list Grid) :=
  match grids with
  | [] => mret []
  | grid :: rest => g ← deref grid; gs ← deref_all rest; mret (g :: gs)
  end.

Definition memoryBuffer : M UCharVectorData :=
  s ← get;
  '(totalSizeBytes, caught) ← memoryBuffer_try (m_grids s) 0;
  match caught with
  | Some _ => IECore_msg Warning "VDBObject::memoryBuffer" "Unable to estimate vdb size."
  | None => mret tt
  end;;
  buffer ← reserve (mkBuffer 0 []) totalSizeBytes;
  grids ← deref_all (m_grids s);
  mret (fold_left UCharVectorDataSink_write
          (memoryStream_delivered (Stream_write grids)) buffer).

(** ** [forceRead] *)

Definition store (a : addr) (g : Grid) : M unit :=
  modify (fun s => set_heap (<[a := g]> (heap s)) s).

Definition forceRead (name : string) : M unit :=
  grid ← findGrid name;
  '(a, g) ← deref_ptr grid;
  store a (readNonresidentBuffers g).

(** ** [metadata] *)

(** [openvdb::DynamicPtrCast<openvdb::TypedMetadata<T> >( ptr )] *)
Definition cast_string (ptr : Metadata) : option string :=
  match ptr with StringMetadata v => Some v | _ => None end.
Definition cast_int64 (ptr : Metadata) : option Z :=
  match ptr with Int64Metadata v => Some v | _ => None end.
Definition cast_bool (ptr : Metadata) : option bool :=
  match ptr with BoolMetadata v => Some v | _ => None end.
Definition cast_vec3i (ptr : Metadata) : option (Vec3 Z) :=
  match ptr with Vec3IMetadata v => Some v | _ => None end.

(** [boost::format("'%1%' has unsupported metadata type: '%2%'") % typeName % key] *)
Definition unsupported (type key : string) : string :=
  "'" +:+ type +:+ "' has unsupported metadata type: '" +:+ key +:+ "'".

(** The body of the loop over the metadata of the grid. *)
Definition metadata_body (members : gmap string Data) (first : string) (ptr : Metadata)
  : M (gmap string Data) :=
  if decide (typeName ptr = "string") then
    match cast_string ptr with
    | Some v => mret (<[first := StringData v]> members)
    | None => mret members
    end
  else if decide (typeName ptr = "int64") then
    match cast_int64 ptr with
    | Some v => mret (<[first := Int64Data v]> members)
    | None => mret members
    end
  else if decide (typeName ptr = "bool") then
    match cast_bool ptr with
    | Some v => mret (<[first := BoolData v]> members)
    | None => mret members
    end
  else if decide (typeName ptr = "vec3i") then
    match cast_vec3i ptr with
    | Some v => mret (<[first := V3iData (mkVec3 (vx v) (vy v) (vz v))]> members)
    | None => mret members
    end
  else
    IECore_msg Warning "VDBObject::metadata" (unsupported (typeName ptr) first);;
    mret members.

Fixpoint metadata_loop (meta : list (string * Metadata)) (members : gmap string Data)
  : M (gmap string Data) :=
  match meta with
  | [] => mret members
  | metaIt :: rest =>
      members ← metadata_body members (fst metaIt) (snd metaIt);
      metadata_loop rest members
  end.

Definition metadata (name : string) : M (option (gmap string Data)) :=
  grid ← findGrid name;
  match grid with
  | None => mret None
  | Some a =>
      g ← deref a;
      store a (addStatsMetadata g);;
      members ← metadata_loop (map_to_list (metaMap (addStatsMetadata g))) ∅;
      mret (Some members)
  end.

(** ** [isEqualTo]

    The last line compares the two vectors with [std::vector]'s [==], over
    shared pointers: same length and the same pointer at every index. *)
Definition isEqualTo (other : Object) (s : State) : bool :=
  if negb (VisibleRenderable_isNotEqualTo (parent s) other) then false
  else
    match runTimeCast other with
    | None => false
    | Some (_, grids) => bool_decide (m_grids s = grids)
    end.

(** ** [hash] *)

(** [MurmurHashSink::write] *)
Definition MurmurHashSink_write (hash : MurmurHash) (s : list byte) : MurmurHash :=
  MurmurHash_append hash s.

(** [sink.hash] when [h.append( sink.hash )] runs. *)
Definition sink_hash (g : Grid) : MurmurHash :=
  fold_left MurmurHashSink_write
    (hashStream_delivered [writeTopology g; writeBuffers g; writeTransform g])
    MurmurHash_new.

Fixpoint hash_loop (grids : list addr) (h : MurmurHash) : M MurmurHash :=
  match grids with
  | [] => mret h
  | grid :: rest =>
      g ← deref grid;
      hash_loop rest (MurmurHash_appendHash h (sink_hash g))
  end.

Definition hash (h : MurmurHash) : M MurmurHash :=
  s ← get; hash_loop (m_grids s) (VisibleRenderable_hash (parent s) h).

(** ** [copyFrom] *)

Definition VisibleRenderable_copyFrom_call (other : Object) (context : CopyContext)
  : M unit :=
  modify (fun s =>
    let r := VisibleRenderable_copyFrom other context (parent s) (host s) in
    set_host (snd r) (set_parent (fst r) s)).

Fixpoint copyFrom_loop (grids : list addr) : M unit :=
  match grids with
  | [] => mret tt
  | grid :: rest =>
      g ← deref grid;
      copy ← alloc (deepCopyGrid g);
      push_back copy;;
      copyFrom_loop rest
  end.

Definition copyFrom (other : Object) (context : CopyContext) : M unit :=
  VisibleRenderable_copyFrom_call other context;;
  match runTimeCast other with
  | None => mret tt
  | Some (_, grids) => copyFrom_loop grids
  end.

(** ** [save], [load] *)

Definition VisibleRenderable_save_call (context : SaveContext) : M unit :=
  s ← get;
  match VisibleRenderable_save (parent s) context (host s) with
  | inl e => throw e
  | inr x => modify (set_host x)
  end.

Definition VisibleRenderable_load_call (context : LoadContext) : M unit :=
  s ← get;
  match VisibleRenderable_load context (parent s) (host s) with
  | inl e => throw e
  | inr r => modify (fun s => set_host (snd r) (set_parent (fst r) s))
  end.

Definition save (context : SaveContext) : M unit :=
  VisibleRenderable_save_call context;;
  throw (NotImplementedException "VDBObject::save").

Definition load (context : LoadContext) : M unit :=
  VisibleRenderable_load_call context;;
  throw (NotImplementedException "VDBObject::load").

End VDBObject.

Arguments Ok {_ _ _ A} _ _.
Arguments Throw {_ _ _ A} _ _.
Arguments Fault {_ _ _ A}.

(** ** Properties of the libraries that some theorems ask for *)

Section Laws.

Context `{!Floating, !OpenVDB, !IECore, !IOStreams, !Platform}.

(** [<] on the coordinates is a strict weak order, as it is on floats
    without NaN (the two zeros compare equal). *)
Definition float_order : Prop :=
  (∀ x, float_lt x x = false) ∧
  (∀ x y z, float_lt x y = true → float_lt y z = true → float_lt x z = true) ∧
  (∀ x y z, float_lt x z = true → float_lt x y = true ∨ float_lt y z = true).

(** Appending a digest to a [MurmurHash] loses nothing (no collisions). *)
Definition collision_free : Prop :=
  ∀ h h' d d' : MurmurHash,
    MurmurHash_appendHash h d = MurmurHash_appendHash h' d' → h = h' ∧ d = d'.

(** A deep copy of a grid writes the same topology, buffers and transform. *)
Definition deepCopy_writes_the_same : Prop :=
  ∀ g, writeTopology (deepCopyGrid g) = writeTopology g ∧
       writeBuffers (deepCopyGrid g) = writeBuffers g ∧
       writeTransform (deepCopyGrid g) = writeTransform g.

(** After the base-class copy the base-class hash is that of the source. *)
Definition base_copy_keeps_hash : Prop :=
  ∀ p grids context b x h,
    VisibleRenderable_hash
      (fst (VisibleRenderable_copyFrom (aVDBObject p grids) context b x)) h
    = VisibleRenderable_hash p h.

(** What a call returned, if it returned. *)
Definition returned {A} (r : Result A) : option A :=
  match r with
  | Ok a _ => Some a
  | _ => None
  end.

(** The grids that the pointers of a vector point to. *)
Definition resolves (h : gmap addr Grid) (l : list addr) (gs : list Grid) : Prop :=
  Forall2 (fun a g => h !! a = Some g) l gs.

(** The index of the first grid of that name. *)
Definition first_index (name : string) (names : list string) : option nat :=
  fst <$> list_find (fun n => n = name) names.

(** [x <= y] on coordinates, and a box inside another. *)
Definition float_le (x y : float32) : Prop := float_lt y x = false.

Definition Vec3_le (v w : Vec3 float32) : Prop :=
  float_le (vx v) (vx w) ∧ float_le (vy v) (vy w) ∧ float_le (vz v) (vz w).

Definition inside (box outer : BBox float32) : Prop :=
  Vec3_le (bbmin outer) (bbmin box) ∧ Vec3_le (bbmax box) (bbmax outer).

(** What the casts of [metadata] deliver for an entry. *)
Definition converted (ptr : Metadata) : option Data :=
  match ptr with
  | StringMetadata v => Some (StringData v)
  | Int64Metadata v => Some (Int64Data v)
  | BoolMetadata v => Some (BoolData v)
  | Vec3IMetadata v => Some (V3iData v)
  | OtherMetadata _ _ => None
  end.

(** What one round of the loop of [metadata] does to the members. *)
Definition keep (members : gmap string Data) (metaIt : string * Metadata)
  : gmap string Data :=
  match converted (snd metaIt) with
  | Some d => <[fst metaIt := d]> members
  | None => members
  end.

Definition supported (type : string) : bool :=
  bool_decide (type = "string") || bool_decide (type = "int64")
  || bool_decide (type = "bool") || bool_decide (type = "vec3i").

(** The type tags of the entries name their classes: no object of another
    class carries one of the four tags. *)
Definition tags_name_the_class (m : gmap string Metadata) : Prop :=
  ∀ key type str, m !! key = Some (OtherMetadata type str) → supported type = false.

(** The warnings of one run of [metadata] over the entries of a grid. *)
Definition warnings (meta : list (string * Metadata)) : list Message :=
  flat_map (fun metaIt =>
    if supported (typeName (snd metaIt)) then []
    else [msg Warning "VDBObject::metadata"
              (unsupported (typeName (snd metaIt)) (fst metaIt))]) meta.

(** The states a collection goes through from [VDBObject()] by [insertGrid]
    and [removeGrid]. *)
Inductive reachable : State → Prop :=
| reachable_new h b l x : reachable (VDBObject_new h b l x)
| reachable_insertGrid s grid s' :
    reachable s → insertGrid grid s = Ok tt s' → reachable s'
| reachable_removeGrid s name s' :
    reachable s → removeGrid name s = Ok tt s' → reachable s'.

End Laws.

Section MoreLaws.

Context `{!Floating, !OpenVDB, !IECore, !IOStreams, !Platform}.

(** A deep copy of a grid has the name of the grid. *)
Definition deepCopy_keeps_name : Prop :=
  ∀ g, getName (deepCopyGrid g) = getName g.


End MoreLaws.

(** ** A reference implementation of the libraries

    Small and exact, to run the methods on concrete collections. *)

Module Reference.

(** Coordinates in steps of half a voxel. *)
Definition floating : Floating := {|
  float32 := Z;
  float64 := Z;
  float_lt := Z.ltb;
  float_max := 2 ^ 128;
  float_lowest := - 2 ^ 128;
  float_half := 1;
  double_of_float := fun x => x;
  float_of_double := fun x => x;
  double_of_int := fun z => 2 * z;
  double_add := Z.add;
  double_sub := Z.sub;
|}.

#[local] Existing Instance floating.

Record SimpleGrid := mkGrid {
  name : string;
  meta : gmap string Metadata;
  topology : list byte;
  voxels : list byte;
  voxelSize : Z;
  resident : bool;
}.

Definition transformBytes (g : SimpleGrid) : list byte :=
  match Byte.of_N (Z.to_N (voxelSize g)) with
  | Some b => [b]
  | None => []
  end.

Definition scale (k : Z) (v : Vec3 Z) : Vec3 Z := Vec3_map (Z.mul k) v.

Definition openvdb : OpenVDB := {|
  Grid := SimpleGrid;
  getName := name;
  metaMap := meta;
  addStatsMetadata := fun g =>
    mkGrid (name g)
      (<["file_mem_bytes" := Int64Metadata (Z.of_nat (length (voxels g)))]> (meta g))
      (topology g) (voxels g) (voxelSize g) (resident g);
  readNonresidentBuffers := fun g =>
    mkGrid (name g) (meta g) (topology g) (voxels g) (voxelSize g) true;
  indexToWorld := fun g (b : BBox (@float64 floating)) =>
    mkBBox (scale (voxelSize g) (bbmin b)) (scale (voxelSize g) (bbmax b));
  writeTopology := topology;
  writeBuffers := voxels;
  writeTransform := transformBytes;
  deepCopyGrid := fun g =>
    mkGrid (name g) (meta g) (topology g) (voxels g) (voxelSize g) true;
  Stream_write := fun gs =>
    concat (map (fun g => list_byte_of_string (name g) ++ topology g ++ voxels g
                          ++ transformBytes g) gs);
  META_FILE_BBOX_MIN := "file_bbox_min";
  META_FILE_BBOX_MAX := "file_bbox_max";
|}.

(** A [MurmurHash] that remembers everything it was given. *)
Inductive Transcript :=
| Fresh
| Bytes (h : Transcript) (s : list byte)
| Digest (h : Transcript) (d : Transcript).

(** The base class holds no data: for it two objects are equal when they are
    of the same type, and [isNotEqualTo] is the negation of that. *)
Definition iecore : IECore := {|
  Base := unit;
  Foreign := string;
  MurmurHash := Transcript;
  CopyContext := unit;
  SaveContext := unit;
  LoadContext := unit;
  Host := list string;
  MurmurHash_new := Fresh;
  MurmurHash_append := Bytes;
  MurmurHash_appendHash := Digest;
  VisibleRenderable_isNotEqualTo := fun _ other =>
    match other with
    | aVDBObject _ _ => false
    | anotherObject _ => true
    end;
  VisibleRenderable_hash := fun _ h => Bytes h (list_byte_of_string "VDBObject");
  VisibleRenderable_copyFrom := fun _ _ b x => (b, x ++ ["copyFrom"]);
  VisibleRenderable_save := fun _ _ x => inr (x ++ ["save"]);
  VisibleRenderable_load := fun _ b x => inr (b, x ++ ["load"]);
|}.

(** The same base class with [isNotEqualTo] answering [answer] always. *)
Definition iecore_answering (answer : bool) : IECore := {|
  Base := unit;
  Foreign := string;
  MurmurHash := Transcript;
  CopyContext := unit;
  SaveContext := unit;
  LoadContext := unit;
  Host := list string;
  MurmurHash_new := Fresh;
  MurmurHash_append := Bytes;
  MurmurHash_appendHash := Digest;
  VisibleRenderable_isNotEqualTo := fun _ _ => answer;
  VisibleRenderable_hash := fun _ h => Bytes h (list_byte_of_string "VDBObject");
  VisibleRenderable_copyFrom := fun _ _ b x => (b, x ++ ["copyFrom"]);
  VisibleRenderable_save := fun _ _ x => inr (x ++ ["save"]);
  VisibleRenderable_load := fun _ b x => inr (b, x ++ ["load"]);
|}.

(** Every write reaches the sink, as it was made. *)
Definition iostreams : IOStreams := {|
  hashStream_delivered := fun writes => writes;
  memoryStream_delivered := fun bytes => [bytes];
|}.

Definition platform : Platform := {| max_size := 2 ^ 63 - 1 |}.

(** Two grids that differ in their names only, a third one, and one without
    metadata. *)
Definition density : SimpleGrid :=
  mkGrid "density"
    (<["file_bbox_min" := Vec3IMetadata (mkVec3 0 0 0)]>
       (<["file_bbox_max" := Vec3IMetadata (mkVec3 3 3 3)]>
          (<["file_mem_bytes" := Int64Metadata 1000]> ∅)))
    [x01] [x02; x03] 1 true.

Definition heat : SimpleGrid :=
  mkGrid "heat"
    (<["file_bbox_min" := Vec3IMetadata (mkVec3 0 0 0)]>
       (<["file_bbox_max" := Vec3IMetadata (mkVec3 3 3 3)]>
          (<["file_mem_bytes" := Int64Metadata 1000]> ∅)))
    [x01] [x02; x03] 1 true.

Definition smoke : SimpleGrid :=
  mkGrid "smoke"
    (<["file_bbox_min" := Vec3IMetadata (mkVec3 1 1 1)]>
       (<["file_bbox_max" := Vec3IMetadata (mkVec3 2 2 2)]>
          (<["class" := StringMetadata "fog volume"]>
             (<["half" := OtherMetadata "float" "0.5"]>
                (<["tag" := OtherMetadata "string" "?"]> ∅)))))
    [x04] [x05] 2 false.

Definition mist : SimpleGrid := mkGrid "mist" ∅ [x06] [x07] 1 true.

Definition grids : gmap addr SimpleGrid :=
  <[1%positive := density]> (<[2%positive := heat]> (<[3%positive := smoke]>
    (<[4%positive := density]> (<[5%positive := mist]> ∅)))).

Definition collection (l : list addr) : @State floating openvdb iecore :=
  @mkState floating openvdb iecore grids tt l [] [].

Definition collection_answering (answer : bool) (l : list addr)
  : @State floating openvdb (iecore_answering answer) :=
  @mkState floating openvdb (iecore_answering answer) grids tt l [] [].

(** A grid whose footprint entry is negative, at address 6. *)
Definition sparse : SimpleGrid :=
  mkGrid "sparse" (<["file_mem_bytes" := Int64Metadata (-1)]> ∅) [x08] [] 1 true.

Definition collection_with_sparse (l : list addr) : @State floating openvdb iecore :=
  @mkState floating openvdb iecore (<[6%positive := sparse]> grids) tt l [] [].

End Reference.

(** * Theorems *)

Section Properties.

Context `{!Floating, !OpenVDB, !IECore, !IOStreams, !Platform}.

Implicit Types (s : State) (l : list addr) (gs : list Grid) (name : string).

Ltac run :=
  unfold mbind, M_bind, mret, M_ret, get, modify, throw, fault, lift in *;
  simpl in *.

Lemma set_m_grids_id s : set_m_grids (m_grids s) s = s.
Proof. by destruct s. Qed.

Lemma deref_Some s a g : heap s !! a = Some g → deref a s = Ok g s.
Proof. intros Hg. unfold deref. by rewrite Hg. Qed.

Lemma deref_Ok s a g s' : deref a s = Ok g s' → s' = s ∧ heap s !! a = Some g.
Proof.
  unfold deref. destruct (heap s !! a) as [g'|]; [|done].
  intros [= -> ->]. done.
Qed.

Lemma bind_deref {A} s a g (k : Grid → M A) :
  heap s !! a = Some g → (deref a ≫= k) s = k g s.
Proof. intros Hg. unfold mbind, M_bind. by rewrite (deref_Some _ _ _ Hg). Qed.

Lemma resolves_deref_all s l gs :
  resolves (heap s) l gs → deref_all l s = Ok gs s.
Proof.
  induction 1 as [|a g l gs Ha _ IH]; [done|].
  simpl. rewrite (bind_deref _ _ _ _ Ha). run. by rewrite IH.
Qed.

Lemma deref_all_resolves s l gs s' :
  deref_all l s = Ok gs s' → s' = s ∧ resolves (heap s) l gs.
Proof.
  revert gs s'. induction l as [|a l IH]; intros gs s'; simpl.
  - run. intros [= <- <-]. split; [done|constructor].
  - run. destruct (deref a s) as [g s1| |] eqn:Ha; try done.
    apply deref_Ok in Ha as [-> Ha].
    destruct (deref_all l s) as [gs' s2| |] eqn:Hl; try done.
    destruct (IH _ _ eq_refl) as [-> Hres].
    intros [= <- <-]. split; [done|]. by constructor.
Qed.

Lemma gridNames_loop_resolves s l gs out :
  resolves (heap s) l gs →
  gridNames_loop l out s = Ok (out ++ (getName <$> gs)) s.
Proof.
  intros Hres. revert out.
  induction Hres as [|a g l gs Ha _ IH]; intros out; simpl.
  - by rewrite app_nil_r.
  - rewrite (bind_deref _ _ _ _ Ha), IH. by rewrite <- app_assoc.
Qed.

Lemma gridNames_loop_Ok s l out names s' :
  gridNames_loop l out s = Ok names s' →
  s' = s ∧ ∃ gs, resolves (heap s) l gs ∧ names = out ++ (getName <$> gs).
Proof.
  revert out. induction l as [|a l IH]; intros out; simpl.
  - run. intros [= <- <-]. split; [done|]. exists []. split; [constructor|].
    by rewrite app_nil_r.
  - run. destruct (deref a s) as [g s1| |] eqn:Ha; try done.
    apply deref_Ok in Ha as [-> Ha]. intros Hl.
    destruct (IH _ Hl) as [-> (gs & Hres & ->)]. split; [done|].
    exists (g :: gs). split; [by constructor|]. by rewrite <- app_assoc.
Qed.

Lemma gridNames_resolves s gs :
  resolves (heap s) (m_grids s) gs → gridNames s = Ok (getName <$> gs) s.
Proof. intros Hres. unfold gridNames. run. by rewrite (gridNames_loop_resolves _ _ gs). Qed.

Lemma gridNames_Ok s names s' :
  gridNames s = Ok names s' →
  s' = s ∧ ∃ gs, resolves (heap s) (m_grids s) gs ∧ names = getName <$> gs.
Proof. unfold gridNames. run. apply gridNames_loop_Ok. Qed.

Lemma findGrid_loop_resolves s l gs name :
  resolves (heap s) l gs →
  findGrid_loop name l s
  = Ok (first_index name (getName <$> gs) ≫= fun i => l !! i) s.
Proof.
  unfold first_index.
  induction 1 as [|a g l gs Ha _ IH]; [done|].
  simpl. rewrite (bind_deref _ _ _ _ Ha).
  destruct (decide (getName g = name)) as [Hn|Hn]; [done|].
  rewrite IH. unfold fmap.
  by destruct (list_find _ (list_fmap _ _ getName gs)) as [[i n]|].
Qed.

Lemma removeGrid_loop_resolves s l gs name :
  resolves (heap s) l gs →
  removeGrid_loop name l s
  = Ok (match first_index name (getName <$> gs) with
        | Some i => delete i l
        | None => l
        end) s.
Proof.
  unfold first_index.
  induction 1 as [|a g l gs Ha _ IH]; [done|].
  simpl. rewrite (bind_deref _ _ _ _ Ha).
  destruct (decide (getName g = name)) as [Hn|Hn]; [done|].
  run. rewrite IH. unfold fmap.
  by destruct (list_find _ (list_fmap _ _ getName gs)) as [[i n]|].
Qed.

Lemma findGrid_resolves s gs name :
  resolves (heap s) (m_grids s) gs →
  findGrid name s
  = Ok (first_index name (getName <$> gs) ≫= fun i => m_grids s !! i) s.
Proof. intros Hres. unfold findGrid. run. by apply findGrid_loop_resolves. Qed.

Lemma removeGrid_resolves s gs name :
  resolves (heap s) (m_grids s) gs →
  removeGrid name s
  = Ok tt (set_m_grids (match first_index name (getName <$> gs) with
                        | Some i => delete i (m_grids s)
                        | None => m_grids s
                        end) s).
Proof.
  intros Hres. unfold removeGrid. run.
  by rewrite (removeGrid_loop_resolves _ _ gs).
Qed.

(** *** [isEqualTo] *)

(** The guard of [isEqualTo] lets a comparison through only when the base
    class reports the two objects as not equal. *)
Lemma isEqualTo_true_isNotEqualTo s (other : Object) :
  isEqualTo other s = true →
  VisibleRenderable_isNotEqualTo (parent s) other = true.
Proof.
  unfold isEqualTo.
  by destruct (VisibleRenderable_isNotEqualTo (parent s) other).
Qed.

Lemma isEqualTo_true_iff s (other : Object) :
  isEqualTo other s = true ↔
  VisibleRenderable_isNotEqualTo (parent s) other = true ∧
  ∃ p, other = aVDBObject p (m_grids s).
Proof.
  unfold isEqualTo. split.
  - destruct (VisibleRenderable_isNotEqualTo (parent s) other); [|done].
    destruct other as [p grids|f]; [|done]. simpl.
    intros ->%bool_decide_eq_true. eauto.
  - intros [-> [p ->]]. simpl. by apply bool_decide_eq_true.
Qed.

(** C1 (amended): [isEqualTo( other )] returns false unless [other] is a
    [VDBObject] whose grid sequence has the same length and holds the same
    grid object (the same pointer) at every index: it is false for an object
    of another kind, when the counts differ, and when some index holds a
    different grid object. *)
Theorem isEqualTo_same_pointers s (other : Object) :
  (isEqualTo other s = true → ∃ p, other = aVDBObject p (m_grids s)) ∧
  (∀ f, other = anotherObject f → isEqualTo other s = false) ∧
  (∀ p grids, other = aVDBObject p grids →
     length grids ≠ length (m_grids s) → isEqualTo other s = false) ∧
  (∀ p grids i, other = aVDBObject p grids →
     grids !! i ≠ m_grids s !! i → isEqualTo other s = false).
Proof.
  assert (Hsame : ∀ p grids, isEqualTo (aVDBObject p grids) s = true →
                             grids = m_grids s).
  { intros p grids. unfold isEqualTo.
    destruct (negb _); [done|]. simpl.
    intros Heq. by apply bool_decide_eq_true in Heq. }
  repeat split.
  - destruct other as [p grids|f].
    + intros Heq. exists p. by rewrite (Hsame _ _ Heq).
    + unfold isEqualTo. by destruct (negb _).
  - intros f ->. unfold isEqualTo. by destruct (negb _).
  - intros p grids -> Hlen. apply not_true_is_false. intros Heq.
    by rewrite (Hsame _ _ Heq) in Hlen.
  - intros p grids i -> Hi. apply not_true_is_false. intros Heq.
    by rewrite (Hsame _ _ Heq) in Hi.
Qed.

(** *** [hash] *)

Lemma hash_loop_resolves s l gs (h : MurmurHash) :
  resolves (heap s) l gs →
  hash_loop l h s = Ok (fold_left MurmurHash_appendHash (sink_hash <$> gs) h) s.
Proof.
  intros Hres. revert h.
  induction Hres as [|a g l gs Ha _ IH]; intros h; [done|].
  simpl. by rewrite (bind_deref _ _ _ _ Ha), IH.
Qed.

Lemma hash_resolves s gs (h : MurmurHash) :
  resolves (heap s) (m_grids s) gs →
  hash h s = Ok (fold_left MurmurHash_appendHash (sink_hash <$> gs)
                   (VisibleRenderable_hash (parent s) h)) s.
Proof. intros Hres. unfold hash. run. by apply hash_loop_resolves. Qed.

(** Without collisions the digests that went in can be read off the hash. *)
Lemma fold_appendHash_inj (ds ds' : list MurmurHash) (h h' : MurmurHash) :
  collision_free →
  length ds = length ds' →
  fold_left MurmurHash_appendHash ds h = fold_left MurmurHash_appendHash ds' h' →
  h = h' ∧ ds = ds'.
Proof.
  intros Hfree. revert ds' h h'.
  induction ds as [|d ds IH]; intros [|d' ds'] h h' Hlen Heq; try done.
  simpl in *. destruct (IH ds' _ _ ltac:(lia) Heq) as [Hhd ->].
  by destruct (Hfree _ _ _ _ Hhd) as [-> ->].
Qed.

(** Grids that write the same topology, buffers and transform have the same
    digest, whatever their names and metadata. *)
Lemma sink_hash_same_writes (g g' : Grid) :
  writeTopology g = writeTopology g' →
  writeBuffers g = writeBuffers g' →
  writeTransform g = writeTransform g' →
  sink_hash g = sink_hash g'.
Proof. unfold sink_hash. by intros -> -> ->. Qed.

(** [sink] is a local variable and the stream is built from it: if what is
    written to the stream does not reach that variable, every digest is that
    of an empty [MurmurHash] and the hash counts the grids. *)
Lemma hash_counts_the_grids_when_sink_is_bypassed s gs (h : MurmurHash) :
  (∀ writes, hashStream_delivered writes = []) →
  resolves (heap s) (m_grids s) gs →
  hash h s
  = Ok (fold_left MurmurHash_appendHash
          (replicate (length (m_grids s)) MurmurHash_new)
          (VisibleRenderable_hash (parent s) h)) s.
Proof.
  intros Hnone Hres. rewrite (hash_resolves s gs h Hres).
  rewrite (Forall2_length _ _ _ Hres).
  assert (Hsame : sink_hash <$> gs = replicate (length gs) MurmurHash_new).
  { clear Hres. induction gs as [|g gs IH]; [done|].
    rewrite fmap_cons, IH. cbn [length replicate].
    f_equal. unfold sink_hash. by rewrite Hnone. }
  by rewrite Hsame.
Qed.

(** *** [copyFrom] *)

Lemma resolves_weaken (h h' : gmap addr Grid) l gs :
  h ⊆ h' → resolves h l gs → resolves h' l gs.
Proof.
  intros Hsub Hres. eapply Forall2_impl; [exact Hres|].
  intros a g Ha. by apply (lookup_weaken h h').
Qed.

Lemma copyFrom_loop_resolves l : ∀ s gs,
  resolves (heap s) l gs →
  ∃ copies h',
    copyFrom_loop l s
    = Ok tt (mkState h' (parent s) (m_grids s ++ copies) (messages s) (host s)) ∧
    heap s ⊆ h' ∧
    resolves h' copies (deepCopyGrid <$> gs) ∧
    NoDup copies ∧
    (∀ c, c ∈ copies → heap s !! c = None).
Proof.
  induction l as [|a l IH]; intros s gs Hres.
  - apply Forall2_nil_inv_l in Hres as ->.
    exists [], (heap s). simpl. rewrite app_nil_r.
    split; [by destruct s|]. split; [done|].
    split; [constructor|]. split; [constructor|].
    intros c Hc. by apply elem_of_nil in Hc.
  - apply Forall2_cons_inv_l in Hres as (g & gs' & Ha & Hres & ->).
    set (c := fresh (dom (heap s))).
    assert (Hc : heap s !! c = None).
    { apply not_elem_of_dom. apply is_fresh. }
    set (s1 := mkState (<[c := deepCopyGrid g]> (heap s)) (parent s)
                 (m_grids s ++ [c]) (messages s) (host s)).
    assert (Hsub : heap s ⊆ heap s1) by by apply insert_subseteq.
    destruct (IH s1 gs' (resolves_weaken _ _ _ _ Hsub Hres))
      as (copies & h' & Hrun & Hsub' & Hcopies & Hnodup & Hfresh).
    exists (c :: copies), h'.
    split; [|split; [|split; [|split]]].
    + simpl. rewrite (bind_deref _ _ _ _ Ha).
      unfold alloc, push_back. run. fold c.
      rewrite <- (app_assoc (m_grids s) [c] copies) in Hrun. exact Hrun.
    + by transitivity (heap s1).
    + constructor; [|done].
      apply (lookup_weaken (heap s1)); [|done]. apply lookup_insert_eq.
    + constructor; [|done]. intros Hin. apply Hfresh in Hin.
      simpl in Hin. by rewrite lookup_insert_eq in Hin.
    + intros c' [->|Hin]%elem_of_cons; [done|].
      apply Hfresh in Hin. simpl in Hin.
      by apply lookup_insert_None in Hin as [? _].
Qed.

Lemma copyFrom_VDBObject s p grids gs (context : CopyContext) :
  let b := VisibleRenderable_copyFrom (aVDBObject p grids) context (parent s) (host s) in
  resolves (heap s) grids gs →
  ∃ copies h',
    copyFrom (aVDBObject p grids) context s
    = Ok tt (mkState h' (fst b) (m_grids s ++ copies) (messages s) (snd b)) ∧
    heap s ⊆ h' ∧
    resolves h' copies (deepCopyGrid <$> gs) ∧
    NoDup copies ∧
    (∀ c, c ∈ copies → heap s !! c = None).
Proof.
  intros b Hres.
  set (s1 := mkState (heap s) (fst b) (m_grids s) (messages s) (snd b)).
  destruct (copyFrom_loop_resolves grids s1 gs Hres)
    as (copies & h' & Hrun & Hsub & Hcopies & Hnodup & Hfresh).
  exists copies, h'. split; [|done].
  unfold copyFrom, VisibleRenderable_copyFrom_call. run. exact Hrun.
Qed.

(** C4: [copyFrom( other, context )] applies the base-class copy first.  If
    [other] is a [VDBObject] it then appends a deep copy of every source grid
    (a new grid object each) to the grid sequence that is already there, which
    it does not clear; if [other] is of another kind it returns normally with
    the grids as they were, the base-class copy having been applied. *)
Theorem copyFrom_appends s (other : Object) (context : CopyContext) :
  let b := VisibleRenderable_copyFrom other context (parent s) (host s) in
  (∀ p grids gs,
     other = aVDBObject p grids → resolves (heap s) grids gs →
     ∃ copies h',
       copyFrom other context s
       = Ok tt (mkState h' (fst b) (m_grids s ++ copies) (messages s) (snd b)) ∧
       heap s ⊆ h' ∧
       resolves h' copies (deepCopyGrid <$> gs) ∧
       NoDup copies ∧
       (∀ c, c ∈ copies → heap s !! c = None)) ∧
  (∀ f,
     other = anotherObject f →
     copyFrom other context s
     = Ok tt (mkState (heap s) (fst b) (m_grids s) (messages s) (snd b))).
Proof.
  intros b. split.
  - intros p grids gs -> Hres. by apply copyFrom_VDBObject.
  - intros f ->. unfold copyFrom, VisibleRenderable_copyFrom_call. by run.
Qed.

(** C2 (amended): [hash] leaves the state as it was and appends, to the
    base-class hash, the digest of every grid in sequence order, so two calls
    on the same state give the same result.  A digest covers what the grid
    writes as topology, buffers and transform, nothing else: for a
    [MurmurHash] without collisions, permuting the sequence changes the hash
    exactly when it changes the sequence of digests.  After [copyFrom] into
    an empty target the hash of the target is that of the source, when a
    deep copy writes what its original writes and the base-class copy brings
    the base-class hash along. *)
Theorem hash_follows_the_digests s gs (h : MurmurHash) :
  deref_all (m_grids s) s = Ok gs s →
  hash h s = Ok (fold_left MurmurHash_appendHash (sink_hash <$> gs)
                   (VisibleRenderable_hash (parent s) h)) s ∧
  (collision_free →
   ∀ l' gs' h1 h2,
     l' ≡ₚ m_grids s →
     deref_all l' s = Ok gs' s →
     returned (hash h s) = Some h1 →
     returned (hash h (set_m_grids l' s)) = Some h2 →
     h1 = h2 ↔ sink_hash <$> gs = sink_hash <$> gs') ∧
  (deepCopy_writes_the_same → base_copy_keeps_hash →
   ∀ target context,
     m_grids target = [] → heap target = heap s →
     ∃ target',
       copyFrom (this s) context target = Ok tt target' ∧
       returned (hash h target') = returned (hash h s)).
Proof.
  intros Hgs. apply deref_all_resolves in Hgs as [_ Hres].
  split; [by apply hash_resolves|]. split.
  - intros Hfree l' gs' h1 h2 Hperm Hgs'.
    apply deref_all_resolves in Hgs' as [_ Hres'].
    rewrite (hash_resolves _ gs) by done.
    rewrite (hash_resolves (set_m_grids l' s) gs') by done.
    simpl. intros [= <-] [= <-]. split.
    + intros Heq. apply fold_appendHash_inj in Heq as [_ Heq]; [done..|].
      rewrite !length_fmap.
      rewrite <- (Forall2_length _ _ _ Hres), <- (Forall2_length _ _ _ Hres').
      by rewrite Hperm.
    + by intros ->.
  - intros Hcopy Hbase target context Hempty Hheap.
    assert (Hres' : resolves (heap target) (m_grids s) gs) by by rewrite Hheap.
    destruct (copyFrom_VDBObject target (parent s) _ gs context Hres')
      as (copies & h' & Hrun & _ & Hcopies & _ & _).
    eexists. split; [exact Hrun|].
    rewrite (hash_resolves s gs) by done.
    rewrite (hash_resolves _ (deepCopyGrid <$> gs)) by by rewrite Hempty.
    simpl. f_equal. unfold this. rewrite Hbase. f_equal.
    rewrite <- list_fmap_compose. apply list_fmap_ext. intros _ g _. simpl.
    destruct (Hcopy g) as (? & ? & ?). by apply sink_hash_same_writes.
Qed.

(** *** [insertGrid], [removeGrid], [forceRead] *)

Lemma first_index_None name (names : list string) :
  first_index name names = None ↔ name ∉ names.
Proof.
  unfold first_index. rewrite fmap_None, list_find_None, Forall_forall.
  split; [intros Hall Hin; by apply (Hall name)|by intros Hn n Hin ->].
Qed.

Lemma first_index_Some name (names : list string) i :
  first_index name names = Some i →
  names !! i = Some name ∧ (i < length names)%nat.
Proof.
  unfold first_index. intros ([j n] & Hfind & ->)%fmap_Some.
  apply list_find_Some in Hfind as (Hj & -> & _). simpl.
  split; [done|]. by apply lookup_lt_Some in Hj.
Qed.

Lemma first_index_elem_of name (names : list string) :
  name ∈ names → ∃ i, first_index name names = Some i.
Proof.
  intros Hin. destruct (first_index name names) as [i|] eqn:Hi; [by exists i|].
  by apply first_index_None in Hi.
Qed.

Lemma first_index_snoc name (names : list string) :
  name ∉ names → first_index name (names ++ [name]) = Some (length names).
Proof.
  unfold first_index. induction names as [|n names IH]; intros Hn; simpl.
  - by rewrite decide_True.
  - apply not_elem_of_cons in Hn as [Hne Hn].
    rewrite decide_False by done.
    specialize (IH Hn).
    destruct (list_find _ (names ++ [name])) as [[j m]|]; [|done].
    simpl in *. by injection IH as ->.
Qed.

Lemma first_index_NoDup name (names : list string) i :
  NoDup names → names !! i = Some name → first_index name names = Some i.
Proof.
  intros Hnodup Hi.
  destruct (first_index_elem_of name names) as [j Hj].
  { by apply list_elem_of_lookup_2 in Hi. }
  rewrite Hj. f_equal. apply first_index_Some in Hj as [Hj _].
  by apply (NoDup_lookup names j i name).
Qed.

Lemma not_elem_of_delete_NoDup (names : list string) i name :
  NoDup names → names !! i = Some name → name ∉ delete i names.
Proof.
  intros Hnodup Hi.
  rewrite <- (take_drop_middle names i name Hi) in Hnodup.
  apply NoDup_app in Hnodup as (_ & Hleft & [Hright _]%NoDup_cons).
  rewrite delete_take_drop. intros [Hin|Hin]%elem_of_app; [|done].
  apply (Hleft _ Hin). by left.
Qed.

Lemma NoDup_replace (names : list string) name :
  NoDup names →
  NoDup (match first_index name names with
         | Some i => delete i names
         | None => names
         end ++ [name]).
Proof.
  intros Hnodup. apply NoDup_app.
  destruct (first_index name names) as [i|] eqn:Hi.
  - apply first_index_Some in Hi as [Hi _]. split; [|split].
    + by apply (sublist_NoDup _ names), sublist_delete.
    + intros n Hin ->%list_elem_of_singleton.
      by apply (not_elem_of_delete_NoDup names i name).
    + apply NoDup_singleton.
  - apply first_index_None in Hi. split; [done|split].
    + by intros n Hin ->%list_elem_of_singleton.
    + apply NoDup_singleton.
Qed.

Lemma resolves_remove h l gs name :
  resolves h l gs →
  resolves h
    (match first_index name (getName <$> gs) with
     | Some i => delete i l | None => l end)
    (match first_index name (getName <$> gs) with
     | Some i => delete i gs | None => gs end).
Proof.
  intros Hres. destruct (first_index _ _); [|done]. by apply Forall2_delete.
Qed.

Lemma insertGrid_resolves s gs a g :
  resolves (heap s) (m_grids s) gs → heap s !! a = Some g →
  insertGrid (Some a) s
  = Ok tt (set_m_grids
             (match first_index (getName g) (getName <$> gs) with
              | Some i => delete i (m_grids s)
              | None => m_grids s
              end ++ [a]) s).
Proof.
  intros Hres Ha. unfold insertGrid, deref_ptr. run.
  rewrite (deref_Some _ _ _ Ha).
  by rewrite (removeGrid_resolves _ gs).
Qed.

Lemma insertGrid_Ok s grid s' :
  insertGrid grid s = Ok tt s' → ∃ a g, grid = Some a ∧ heap s !! a = Some g.
Proof.
  destruct grid as [a|]; [|done]. unfold insertGrid, deref_ptr. run.
  destruct (deref a s) as [g s1| |] eqn:Ha; try done.
  apply deref_Ok in Ha as [_ Ha]. eauto.
Qed.

Lemma fmap_remove (gs : list Grid) name :
  getName <$> (match first_index name (getName <$> gs) with
               | Some i => delete i gs | None => gs end)
  = match first_index name (getName <$> gs) with
    | Some i => delete i (getName <$> gs) | None => getName <$> gs end.
Proof. destruct (first_index _ _); [|done]. apply list_fmap_delete. Qed.

Lemma reachable_resolves s :
  reachable s →
  ∃ gs, resolves (heap s) (m_grids s) gs ∧ NoDup (getName <$> gs).
Proof.
  induction 1 as [h b l x|s grid s' _ (gs & Hres & Hnodup) Hrun
                 |s name s' _ (gs & Hres & Hnodup) Hrun].
  - exists []. split; constructor.
  - destruct (insertGrid_Ok _ _ _ Hrun) as (a & g & -> & Ha).
    rewrite (insertGrid_resolves _ gs _ g) in Hrun by done.
    injection Hrun as <-. simpl.
    exists (match first_index (getName g) (getName <$> gs) with
            | Some i => delete i gs | None => gs end ++ [g]).
    split.
    + apply Forall2_app; [by apply resolves_remove|by repeat constructor].
    + rewrite fmap_app, fmap_remove. by apply NoDup_replace.
  - rewrite (removeGrid_resolves _ gs) in Hrun by done.
    injection Hrun as <-. simpl.
    exists (match first_index name (getName <$> gs) with
            | Some i => delete i gs | None => gs end).
    split; [by apply resolves_remove|].
    rewrite fmap_remove. destruct (first_index _ _); [|done].
    by apply (sublist_NoDup _ (getName <$> gs)), sublist_delete.
Qed.

(** C3 (amended): [insertGrid] and [removeGrid] keep the grid names of a
    collection pairwise distinct: they are so in every state reached from
    [VDBObject()] through these two.  With distinct names, [insertGrid] of a
    grid whose name is present leaves the size as it was and makes the new
    grid the one found under that name; [removeGrid] of a name that is not
    present changes nothing.  ([copyFrom] appends without looking at the
    names and is not covered.) *)
Theorem insertGrid_removeGrid_keep_names_distinct :
  (∀ s, reachable s → ∃ names, gridNames s = Ok names s ∧ NoDup names) ∧
  (∀ s names a g,
     gridNames s = Ok names s → NoDup names →
     heap s !! a = Some g → getName g ∈ names →
     ∃ s', insertGrid (Some a) s = Ok tt s' ∧
           length (m_grids s') = length (m_grids s) ∧
           findGrid (getName g) s' = Ok (Some a) s') ∧
  (∀ s names name,
     gridNames s = Ok names s → name ∉ names → removeGrid name s = Ok tt s).
Proof.
  split; [|split].
  - intros s (gs & Hres & Hnodup)%reachable_resolves.
    exists (getName <$> gs). split; [by apply gridNames_resolves|done].
  - intros s names a g (_ & gs & Hres & ->)%gridNames_Ok Hnodup Ha Hin.
    destruct (first_index_elem_of _ _ Hin) as [i Hi].
    pose proof (first_index_Some _ _ _ Hi) as [Hlook Hlt].
    rewrite length_fmap, <- (Forall2_length _ _ _ Hres) in Hlt.
    eexists. split; [by apply (insertGrid_resolves _ gs _ g)|].
    rewrite Hi. simpl. split.
    + rewrite length_app, length_delete by by apply lookup_lt_is_Some_2.
      simpl. lia.
    + rewrite (findGrid_resolves _ (delete i gs ++ [g])).
      2:{ simpl. apply Forall2_app; [by apply Forall2_delete|].
          by repeat constructor. }
      simpl. rewrite fmap_app, list_fmap_delete. simpl.
      rewrite first_index_snoc
        by by apply (not_elem_of_delete_NoDup _ i).
      simpl. rewrite list_lookup_middle; [done|].
      pose proof (Forall2_length _ _ _ Hres) as Hlen.
      rewrite !length_delete
        by (apply lookup_lt_is_Some_2; rewrite ?length_fmap; lia).
      rewrite length_fmap. lia.
  - intros s names name (_ & gs & Hres & ->)%gridNames_Ok Hn.
    rewrite (removeGrid_resolves _ gs) by done.
    apply first_index_None in Hn. rewrite Hn. by rewrite set_m_grids_id.
Qed.

(** C8: [forceRead( name )] uses the result of [findGrid] without a check.
    When [name] is the name of a grid of the collection, [findGrid] returns
    that grid and [forceRead] loads its buffers and returns; for a name that
    is not present [findGrid] returns null and the dereference is undefined
    behaviour, not an error that is reported. *)
Theorem forceRead_dereferences_findGrid s names name :
  gridNames s = Ok names s →
  (name ∈ names →
   ∃ a g, findGrid name s = Ok (Some a) s ∧
          heap s !! a = Some g ∧ getName g = name ∧
          forceRead name s
          = Ok tt (set_heap (<[a := readNonresidentBuffers g]> (heap s)) s)) ∧
  (name ∉ names →
   findGrid name s = Ok None s ∧
   forceRead name s = Fault ∧
   ∀ e s', forceRead name s ≠ Throw e s').
Proof.
  intros (_ & gs & Hres & ->)%gridNames_Ok. split.
  - intros Hin. destruct (first_index_elem_of _ _ Hin) as [i Hi].
    pose proof (first_index_Some _ _ _ Hi) as [Hlook Hlt].
    apply list_lookup_fmap_Some in Hlook as (g & Hname & Hg). symmetry in Hname.
    destruct (Forall2_lookup_r _ _ _ _ _ Hres Hg) as (a & Ha & Hheap).
    assert (Hfind : findGrid name s = Ok (Some a) s).
    { rewrite (findGrid_resolves _ gs) by done. rewrite Hi. simpl. by rewrite Ha. }
    exists a, g. split; [done|]. split; [done|]. split; [done|].
    unfold forceRead, deref_ptr, store. run. rewrite Hfind.
    by rewrite (deref_Some _ _ _ Hheap).
  - intros Hn. apply first_index_None in Hn.
    assert (Hfind : findGrid name s = Ok None s).
    { rewrite (findGrid_resolves _ gs) by done. by rewrite Hn. }
    split; [done|].
    assert (Hfault : forceRead name s = Fault).
    { unfold forceRead, deref_ptr. run. by rewrite Hfind. }
    split; [done|]. intros e s'. by rewrite Hfault.
Qed.

(** C10 (amended): [insertGrid] of a grid whose name is present erases the
    first grid of that name where it stands and appends the new grid at the
    end.  With distinct names, and when the erased grid was not the last,
    [gridNames] then shows another order.  The hash is taken over the new
    order: it is the same when the sequence of digests is the same, and for
    a [MurmurHash] without collisions only then. *)
Theorem insertGrid_moves_the_name_to_the_end s names a g i :
  gridNames s = Ok names s →
  heap s !! a = Some g →
  first_index (getName g) names = Some i →
  ∃ s',
    insertGrid (Some a) s = Ok tt s' ∧
    m_grids s' = delete i (m_grids s) ++ [a] ∧
    gridNames s' = Ok (delete i names ++ [getName g]) s' ∧
    (NoDup names → (S i < length names)%nat →
     delete i names ++ [getName g] ≠ names) ∧
    (∀ gs gs' (h : MurmurHash),
       deref_all (m_grids s) s = Ok gs s →
       deref_all (m_grids s') s' = Ok gs' s' →
       (sink_hash <$> gs' = sink_hash <$> gs →
        returned (hash h s') = returned (hash h s)) ∧
       (collision_free →
        returned (hash h s') = returned (hash h s) →
        sink_hash <$> gs' = sink_hash <$> gs)).
Proof.
  intros (_ & gs & Hres & ->)%gridNames_Ok Ha Hi.
  pose proof (first_index_Some _ _ _ Hi) as [Hlook Hlt].
  pose proof (Forall2_length _ _ _ Hres) as Hlen.
  rewrite length_fmap in Hlt.
  assert (Hres' : resolves (heap s) (delete i (m_grids s) ++ [a])
                    (delete i gs ++ [g])).
  { apply Forall2_app; [by apply Forall2_delete|by repeat constructor]. }
  eexists. split; [by apply (insertGrid_resolves _ gs _ g)|].
  rewrite Hi. simpl. split; [done|]. split; [|split].
  - rewrite (gridNames_resolves _ (delete i gs ++ [g])) by done.
    by rewrite fmap_app, list_fmap_delete.
  - intros Hnodup HSi Heq.
    assert (Hi' : (delete i (getName <$> gs) ++ [getName g]) !! i
                  = (getName <$> gs) !! S i).
    { rewrite lookup_app_l.
      - by apply list_lookup_delete_ge.
      - rewrite length_fmap in HSi.
        rewrite length_delete
          by (apply lookup_lt_is_Some_2; rewrite length_fmap; lia).
        rewrite length_fmap. lia. }
    rewrite Heq, Hlook in Hi'. symmetry in Hi'.
    pose proof (NoDup_lookup _ _ _ _ Hnodup Hlook Hi'). lia.
  - intros gs0 gs' h [_ Hgs0]%deref_all_resolves [_ Hgs']%deref_all_resolves.
    rewrite (hash_resolves s gs0) by done.
    rewrite (hash_resolves (set_m_grids _ s) gs') by done. simpl.
    split; [by intros ->|].
    intros Hfree [= Heq].
    apply fold_appendHash_inj in Heq as [_ Heq]; [done..|].
    rewrite !length_fmap.
    rewrite <- (Forall2_length _ _ _ Hgs0), <- (Forall2_length _ _ _ Hgs').
    simpl. rewrite length_app, length_delete by (apply lookup_lt_is_Some_2; lia).
    simpl. lia.
Qed.

(** *** [save], [load] *)

(** C6: [save] and [load] never return: once the base-class step has
    returned they throw [NotImplementedException], in every state, and the
    grids and the grid sequence are as they were (an exception of the
    base-class step goes through as it is). *)
Theorem save_load_not_implemented s :
  (∀ context : SaveContext,
     (∀ u s', save context s ≠ Ok u s') ∧
     (∀ x, VisibleRenderable_save (parent s) context (host s) = inr x →
           save context s
           = Throw (NotImplementedException "VDBObject::save") (set_host x s)) ∧
     (∀ e, VisibleRenderable_save (parent s) context (host s) = inl e →
           save context s = Throw e s)) ∧
  (∀ context : LoadContext,
     (∀ u s', load context s ≠ Ok u s') ∧
     (∀ r, VisibleRenderable_load context (parent s) (host s) = inr r →
           load context s
           = Throw (NotImplementedException "VDBObject::load")
               (set_host (snd r) (set_parent (fst r) s))) ∧
     (∀ e, VisibleRenderable_load context (parent s) (host s) = inl e →
           load context s = Throw e s)).
Proof.
  split; intros context.
  - unfold save, VisibleRenderable_save_call. run.
    destruct (VisibleRenderable_save _ _ _) as [e|x]; simpl.
    + split; [done|]. split; [done|]. by intros e' [= ->].
    + split; [done|]. split; [|done]. by intros x' [= ->].
  - unfold load, VisibleRenderable_load_call. run.
    destruct (VisibleRenderable_load _ _ _) as [e|r]; simpl.
    + split; [done|]. split; [done|]. by intros e' [= ->].
    + split; [done|]. split; [|done]. by intros r' [= ->].
Qed.

(** *** [metadata] *)

Lemma set_messages_nil s : set_messages (messages s ++ []) s = s.
Proof. rewrite app_nil_r. by destruct s. Qed.

Lemma supported_false (type : string) :
  type ≠ "string" → type ≠ "int64" → type ≠ "bool" → type ≠ "vec3i" →
  supported type = false.
Proof.
  intros. unfold supported. by rewrite !bool_decide_eq_false_2.
Qed.

Lemma warnings_cons first ptr meta :
  warnings ((first, ptr) :: meta)
  = (if supported (typeName ptr) then []
     else [msg Warning "VDBObject::metadata" (unsupported (typeName ptr) first)])
    ++ warnings meta.
Proof. done. Qed.

Lemma metadata_body_keep members first ptr s :
  metadata_body members first ptr s
  = Ok (keep members (first, ptr))
       (set_messages (messages s ++ warnings [(first, ptr)]) s).
Proof.
  rewrite warnings_cons. unfold metadata_body, keep.
  change (warnings []) with (@nil Message). rewrite app_nil_r.
  destruct ptr as [v|v|v|[x y z]|type str];
    [change (supported _) with true; cbn [typeName snd fst converted];
     repeat (case_decide; try discriminate); simpl;
     by rewrite set_messages_nil ..|].
  cbn [typeName snd fst converted cast_string cast_int64 cast_bool cast_vec3i].
  repeat case_decide; subst;
    try (change (supported _) with true; by rewrite set_messages_nil).
  rewrite supported_false by done. unfold IECore_msg. by run.
Qed.

Lemma metadata_loop_keep meta : ∀ members s,
  metadata_loop meta members s
  = Ok (fold_left keep meta members)
       (set_messages (messages s ++ warnings meta) s).
Proof.
  induction meta as [|[first ptr] meta IH]; intros members s.
  - simpl. by rewrite set_messages_nil.
  - cbn [metadata_loop fold_left fst snd]. unfold mbind, M_bind.
    rewrite metadata_body_keep, IH.
    rewrite (warnings_cons first ptr meta), (warnings_cons first ptr []).
    change (warnings []) with (@nil Message). rewrite app_nil_r.
    unfold set_messages. simpl. by rewrite <- app_assoc.
Qed.

Lemma fold_keep_lookup meta : ∀ members key d,
  NoDup meta.*1 →
  (∀ k, k ∈ meta.*1 → members !! k = None) →
  fold_left keep meta members !! key = Some d ↔
  members !! key = Some d ∨ ∃ ptr, (key, ptr) ∈ meta ∧ converted ptr = Some d.
Proof.
  induction meta as [|[k0 p0] meta IH]; intros members key d Hnodup Hfresh.
  - simpl. split; [by left|]. intros [?|(ptr & Hin & _)]; [done|].
    by apply elem_of_nil in Hin.
  - simpl in *. apply NoDup_cons in Hnodup as [Hk0 Hnodup].
    assert (Hk0' : members !! k0 = None) by (apply Hfresh; by left).
    rewrite IH; [|done|].
    + unfold keep. simpl. split.
      * intros [Hm|(ptr & Hin & Hc)].
        -- destruct (converted p0) as [d0|] eqn:Hp0; [|by left].
           destruct (decide (key = k0)) as [->|Hne].
           ++ rewrite lookup_insert_eq in Hm. injection Hm as ->.
              right. exists p0. split; [by left|done].
           ++ rewrite lookup_insert_ne in Hm by done. by left.
        -- right. exists ptr. split; [by right|done].
      * intros [Hm|(ptr & [Heq|Hin]%elem_of_cons & Hc)].
        -- left. destruct (converted p0); [|done].
           rewrite lookup_insert_ne; [done|]. intros ->. congruence.
        -- injection Heq as -> ->. left. rewrite Hc.
           apply lookup_insert_eq.
        -- right. eauto.
    + intros k Hk. unfold keep. simpl.
      destruct (converted p0); [|apply Hfresh; by right].
      rewrite lookup_insert_ne; [apply Hfresh; by right|].
      by intros ->.
Qed.

Lemma fold_keep_map_to_list (m : gmap string Metadata) :
  fold_left keep (map_to_list m) ∅ = omap converted m.
Proof.
  apply map_eq. intros key. apply option_eq. intros d.
  rewrite fold_keep_lookup;
    [|apply NoDup_fst_map_to_list|intros; apply lookup_empty].
  rewrite lookup_omap, lookup_empty, bind_Some.
  split.
  - intros [?|(ptr & Hin%elem_of_map_to_list & Hc)]; [done|]. eauto.
  - intros (ptr & Hm & Hc). right. exists ptr.
    split; [by apply elem_of_map_to_list|done].
Qed.

(** When the tags name the classes, the entries that are converted are those
    with one of the four tags. *)
Lemma converted_iff_supported (m : gmap string Metadata) key ptr :
  tags_name_the_class m → m !! key = Some ptr →
  is_Some (converted ptr) ↔ supported (typeName ptr) = true.
Proof.
  intros Htags Hptr. destruct ptr as [v|v|v|v|type str]; simpl;
    try (split; [done|by eexists]).
  rewrite (Htags _ _ _ Hptr). split; [by intros [? ?]|done].
Qed.

(** C7 (amended): [metadata( name )] returns none for a name that is not
    present.  For a name that is present it attaches the statistics metadata
    to the grid and returns a mapping with exactly those entries of the grid
    whose object is one of the four typed kinds (string, 64-bit integer,
    boolean, 3D integer vector), each with the stored value; an entry whose
    type tag is none of the four is left out with a warning, and an entry
    whose tag is one of the four but whose object fails the cast is left out
    without one. *)
Theorem metadata_converts_the_typed_entries s names name :
  gridNames s = Ok names s →
  (name ∉ names → metadata name s = Ok None s) ∧
  (name ∈ names →
   ∃ a g,
     findGrid name s = Ok (Some a) s ∧ heap s !! a = Some g ∧
     metadata name s
     = Ok (Some (omap converted (metaMap (addStatsMetadata g))))
          (set_messages
             (messages s ++ warnings (map_to_list (metaMap (addStatsMetadata g))))
             (set_heap (<[a := addStatsMetadata g]> (heap s)) s)) ∧
     (∀ key d,
        omap converted (metaMap (addStatsMetadata g)) !! key = Some d ↔
        ∃ ptr, metaMap (addStatsMetadata g) !! key = Some ptr ∧
               converted ptr = Some d) ∧
     (∀ w,
        w ∈ warnings (map_to_list (metaMap (addStatsMetadata g))) ↔
        ∃ key ptr, metaMap (addStatsMetadata g) !! key = Some ptr ∧
                   supported (typeName ptr) = false ∧
                   w = msg Warning "VDBObject::metadata"
                         (unsupported (typeName ptr) key))).
Proof.
  intros (_ & gs & Hres & ->)%gridNames_Ok. split.
  - intros Hn%first_index_None. unfold metadata. run.
    rewrite (findGrid_resolves _ gs) by done. by rewrite Hn.
  - intros Hin. destruct (first_index_elem_of _ _ Hin) as [i Hi].
    pose proof (first_index_Some _ _ _ Hi) as [Hlook _].
    apply list_lookup_fmap_Some in Hlook as (g & _ & Hg).
    destruct (Forall2_lookup_r _ _ _ _ _ Hres Hg) as (a & Ha & Hheap).
    assert (Hfind : findGrid name s = Ok (Some a) s).
    { rewrite (findGrid_resolves _ gs) by done. rewrite Hi. simpl. by rewrite Ha. }
    exists a, g. split; [done|]. split; [done|]. split; [|split].
    + unfold metadata, store. run. rewrite Hfind.
      rewrite (deref_Some _ _ _ Hheap). simpl.
      by rewrite metadata_loop_keep, fold_keep_map_to_list.
    + intros key d. by rewrite lookup_omap, bind_Some.
    + intros w. unfold warnings. rewrite list_elem_of_In, in_flat_map.
      setoid_rewrite <- list_elem_of_In. split.
      * intros ([key ptr] & Hin' & Hw). simpl in Hw.
        apply elem_of_map_to_list in Hin'.
        destruct (supported (typeName ptr)) eqn:Hs;
          [by apply elem_of_nil in Hw|].
        apply list_elem_of_singleton in Hw. by exists key, ptr.
      * intros (key & ptr & Hptr & Hs & ->). exists (key, ptr). simpl.
        rewrite Hs. split; [by apply elem_of_map_to_list|by left].
Qed.

(** *** [memoryBuffer] *)

Lemma memoryBuffer_try_all s l gs vs : ∀ total,
  resolves (heap s) l gs →
  Forall2 (fun g v => metaValue_int64 g "file_mem_bytes" = inr v) gs vs →
  memoryBuffer_try l total s = Ok (fold_left int64_add vs total, None) s.
Proof.
  intros total Hres. revert vs total.
  induction Hres as [|a g l gs Ha _ IH]; intros vs total Hvs.
  - by apply Forall2_nil_inv_l in Hvs as ->.
  - apply Forall2_cons_inv_l in Hvs as (v & vs' & Hv & Hvs & ->).
    simpl. rewrite (bind_deref _ _ _ _ Ha), Hv. by apply IH.
Qed.

Lemma memoryBuffer_try_caught s pre : ∀ l g post vs e total,
  resolves (heap s) l (pre ++ g :: post) →
  Forall2 (fun g v => metaValue_int64 g "file_mem_bytes" = inr v) pre vs →
  metaValue_int64 g "file_mem_bytes" = inl e →
  memoryBuffer_try l total s = Ok (fold_left int64_add vs total, Some e) s.
Proof.
  induction pre as [|g0 pre IH]; intros l g post vs e total Hres Hvs He.
  - apply Forall2_nil_inv_l in Hvs as ->.
    apply Forall2_cons_inv_r in Hres as (a & l' & Ha & _ & ->).
    simpl. by rewrite (bind_deref _ _ _ _ Ha), He.
  - apply Forall2_cons_inv_l in Hvs as (v & vs' & Hv & Hvs & ->).
    apply Forall2_cons_inv_r in Hres as (a & l' & Ha & Hres & ->).
    simpl. rewrite (bind_deref _ _ _ _ Ha), Hv. by apply (IH _ g post).
Qed.

Lemma fold_UCharVectorDataSink_write chunks : ∀ buffer,
  fold_left UCharVectorDataSink_write chunks buffer
  = mkBuffer (reserved buffer) (readable buffer ++ concat chunks).
Proof.
  induction chunks as [|c chunks IH]; intros buffer; simpl.
  - rewrite app_nil_r. by destruct buffer.
  - rewrite IH. simpl. by rewrite <- app_assoc.
Qed.

Lemma reserve_accepted s n :
  to_size_t n ≤ max_size →
  reserve (mkBuffer 0 []) n s = Ok (mkBuffer (to_size_t n) []) s.
Proof.
  intros Hn. unfold reserve. rewrite decide_False by lia. run.
  do 2 f_equal. apply Z.max_r. apply Z.mod_pos_bound. done.
Qed.

Lemma reserve_refused s v n :
  max_size < to_size_t n →
  reserve v n s = Throw (length_error "vector::reserve") s.
Proof. intros Hn. unfold reserve. by rewrite decide_True. Qed.

Lemma memoryBuffer_after_try s gs total caught :
  resolves (heap s) (m_grids s) gs →
  memoryBuffer_try (m_grids s) 0 s = Ok (total, caught) s →
  to_size_t total ≤ max_size →
  memoryBuffer s
  = Ok (mkBuffer (to_size_t total) (concat (memoryStream_delivered (Stream_write gs))))
       (match caught with
        | Some _ =>
            set_messages
              (messages s ++ [msg Warning "VDBObject::memoryBuffer"
                                "Unable to estimate vdb size."]) s
        | None => s
        end).
Proof.
  intros Hres Htry Hfits. unfold memoryBuffer. run. rewrite Htry.
  destruct caught as [e|]; unfold IECore_msg; run.
  - rewrite reserve_accepted by done.
    rewrite (resolves_deref_all _ _ gs) by done.
    by rewrite fold_UCharVectorDataSink_write.
  - rewrite reserve_accepted by done.
    rewrite (resolves_deref_all _ _ gs) by done.
    by rewrite fold_UCharVectorDataSink_write.
Qed.

Lemma memoryBuffer_refused s total caught :
  memoryBuffer_try (m_grids s) 0 s = Ok (total, caught) s →
  max_size < to_size_t total →
  ∃ s', memoryBuffer s = Throw (length_error "vector::reserve") s'.
Proof.
  intros Htry Hbig. unfold memoryBuffer. run. rewrite Htry.
  destruct caught as [e|]; unfold IECore_msg; run;
    rewrite reserve_refused by done; eauto.
Qed.

(** C9 (amended): in [memoryBuffer] a failure to read ["file_mem_bytes"] of
    a grid is caught: a warning is logged, the loop over the grids stops
    there, and [reserve] is given the sum of the values read before that grid
    (nothing is reserved only when that sum is zero).  Whenever [reserve]
    accepts the size, the bytes of the returned buffer are what the stream
    delivers for the grid sequence, the same as when every value is read. *)
Theorem memoryBuffer_estimate_is_a_hint s gs :
  deref_all (m_grids s) s = Ok gs s →
  let contents := concat (memoryStream_delivered (Stream_write gs)) in
  let warning :=
    msg Warning "VDBObject::memoryBuffer" "Unable to estimate vdb size." in
  (∀ vs,
     Forall2 (fun g v => metaValue_int64 g "file_mem_bytes" = inr v) gs vs →
     to_size_t (fold_left int64_add vs 0) ≤ max_size →
     memoryBuffer s
     = Ok (mkBuffer (to_size_t (fold_left int64_add vs 0)) contents) s) ∧
  (∀ pre g post vs e,
     gs = pre ++ g :: post →
     Forall2 (fun g v => metaValue_int64 g "file_mem_bytes" = inr v) pre vs →
     metaValue_int64 g "file_mem_bytes" = inl e →
     to_size_t (fold_left int64_add vs 0) ≤ max_size →
     memoryBuffer s
     = Ok (mkBuffer (to_size_t (fold_left int64_add vs 0)) contents)
          (set_messages (messages s ++ [warning]) s)).
Proof.
  intros [_ Hres]%deref_all_resolves contents warning. split.
  - intros vs Hvs Hfits.
    by rewrite (memoryBuffer_after_try s gs _ None Hres
                  (memoryBuffer_try_all _ _ _ _ _ Hres Hvs)).
  - intros pre g post vs e -> Hvs He Hfits.
    by rewrite (memoryBuffer_after_try s _ _ (Some e) Hres
                  (memoryBuffer_try_caught _ _ _ _ _ _ _ _ Hres Hvs He)).
Qed.

(** *** [bound] *)

Lemma float_le_refl x : float_order → float_le x x.
Proof. intros (Hirr & _ & _). apply Hirr. Qed.

Lemma float_lt_asym x y :
  float_order → float_lt x y = true → float_lt y x = false.
Proof.
  intros (Hirr & Htrans & _) Hxy. apply not_true_is_false. intros Hyx.
  pose proof (Htrans _ _ _ Hxy Hyx) as Hxx. by rewrite Hirr in Hxx.
Qed.

Lemma float_le_trans x y z :
  float_order → float_le x y → float_le y z → float_le x z.
Proof.
  intros (_ & _ & Hneg) Hxy Hyz. unfold float_le in *.
  apply not_true_is_false. intros Hzx.
  destruct (Hneg _ y _ Hzx); congruence.
Qed.

Lemma extend_min_le x cur new :
  float_le x cur → float_le x new → float_le x (extend_min cur new).
Proof. intros. unfold extend_min. by destruct (float_lt new cur). Qed.

Lemma extend_max_le x cur new :
  float_le cur x → float_le new x → float_le (extend_max cur new) x.
Proof. intros. unfold extend_max. by destruct (float_lt cur new). Qed.

Lemma extend_min_lower cur new :
  float_order →
  float_le (extend_min cur new) cur ∧ float_le (extend_min cur new) new.
Proof.
  intros Hord. unfold extend_min. destruct (float_lt new cur) eqn:Hlt.
  - split; [by apply float_lt_asym|by apply float_le_refl].
  - split; [by apply float_le_refl|done].
Qed.

Lemma extend_max_upper cur new :
  float_order →
  float_le cur (extend_max cur new) ∧ float_le new (extend_max cur new).
Proof.
  intros Hord. unfold extend_max. destruct (float_lt cur new) eqn:Hlt.
  - split; [by apply float_lt_asym|by apply float_le_refl].
  - split; [by apply float_le_refl|done].
Qed.

Lemma inside_refl b : float_order → inside b b.
Proof. intros Hord. repeat split; by apply float_le_refl. Qed.

Lemma inside_trans a b c :
  float_order → inside a b → inside b c → inside a c.
Proof.
  intros Hord ((?&?&?)&(?&?&?)) ((?&?&?)&(?&?&?)).
  repeat split; eapply float_le_trans; eauto.
Qed.

Lemma inside_extendBy cur box :
  float_order →
  inside cur (extendBy cur box) ∧ inside box (extendBy cur box).
Proof.
  intros Hord. unfold inside, Vec3_le, extendBy. simpl.
  repeat split;
    first [by apply extend_min_lower|by apply extend_max_upper].
Qed.

Lemma extendBy_least cur box outer :
  inside cur outer → inside box outer → inside (extendBy cur box) outer.
Proof.
  intros ((?&?&?)&(?&?&?)) ((?&?&?)&(?&?&?)).
  unfold inside, Vec3_le, extendBy. simpl.
  repeat split; first [by apply extend_min_le|by apply extend_max_le].
Qed.

Lemma extendBy_inside cur box : inside box cur → extendBy cur box = cur.
Proof.
  intros ((Hx&Hy&Hz)&(Hx'&Hy'&Hz')). unfold float_le in *.
  destruct cur as [[] []], box as [[] []]. simpl in *.
  unfold extendBy, Vec3_zip, extend_min, extend_max. simpl.
  by rewrite Hx, Hy, Hz, Hx', Hy', Hz'.
Qed.

Lemma fold_extendBy_upper boxes : ∀ acc,
  float_order →
  inside acc (fold_left extendBy boxes acc) ∧
  ∀ b, b ∈ boxes → inside b (fold_left extendBy boxes acc).
Proof.
  induction boxes as [|box boxes IH]; intros acc Hord; simpl.
  - split; [by apply inside_refl|]. intros b Hb. by apply elem_of_nil in Hb.
  - destruct (IH (extendBy acc box) Hord) as [Hacc Hall].
    destruct (inside_extendBy acc box Hord) as [Hl Hr].
    split; [by apply (inside_trans _ (extendBy acc box))|].
    intros b [->|Hb]%elem_of_cons; [|by apply Hall].
    by apply (inside_trans _ (extendBy acc box)).
Qed.

Lemma fold_extendBy_least boxes : ∀ acc outer,
  inside acc outer → (∀ b, b ∈ boxes → inside b outer) →
  inside (fold_left extendBy boxes acc) outer.
Proof.
  induction boxes as [|box boxes IH]; intros acc outer Hacc Hall; [done|].
  simpl. apply IH.
  - apply extendBy_least; [done|]. apply Hall. by left.
  - intros b Hb. apply Hall. by right.
Qed.

Lemma bound_loop_boxes s l gs : ∀ boxes acc,
  resolves (heap s) l gs →
  Forall2 (fun g b => worldBound g float_half = inr b) gs boxes →
  bound_loop l acc s = Ok (fold_left extendBy boxes acc) s.
Proof.
  intros boxes acc Hres. revert boxes acc.
  induction Hres as [|a g l gs Ha _ IH]; intros boxes acc Hboxes.
  - by apply Forall2_nil_inv_l in Hboxes as ->.
  - apply Forall2_cons_inv_l in Hboxes as (b & boxes' & Hb & Hboxes & ->).
    simpl. rewrite (bind_deref _ _ _ _ Ha), Hb. run. by apply IH.
Qed.

Lemma bound_loop_Ok s l gs : ∀ acc U s',
  resolves (heap s) l gs →
  bound_loop l acc s = Ok U s' →
  ∃ boxes, Forall2 (fun g b => worldBound g float_half = inr b) gs boxes ∧
           U = fold_left extendBy boxes acc.
Proof.
  intros acc U s' Hres. revert acc.
  induction Hres as [|a g l gs Ha _ IH]; intros acc; simpl.
  - run. intros [= <- _]. exists []. split; [constructor|done].
  - rewrite (bind_deref _ _ _ _ Ha).
    destruct (worldBound g float_half) as [e|b] eqn:Hb; run; [done|].
    intros (boxes & Hboxes & ->)%IH.
    exists (b :: boxes). split; [by constructor|done].
Qed.

Lemma bound_loop_throws s l gs : ∀ acc,
  resolves (heap s) l gs →
  (∃ g e, g ∈ gs ∧ worldBound g float_half = inl e) →
  ∃ e, bound_loop l acc s = Throw e s.
Proof.
  intros acc Hres. revert acc.
  induction Hres as [|a g l gs Ha _ IH]; intros acc (g' & e & Hin & He).
  - by apply elem_of_nil in Hin.
  - simpl. rewrite (bind_deref _ _ _ _ Ha).
    destruct (worldBound g float_half) as [e0|b] eqn:Hb; run; [by exists e0|].
    apply IH. apply elem_of_cons in Hin as [->|Hin]; [congruence|].
    by exists g', e.
Qed.

Lemma worldBound_reads_the_metadata g padding b :
  worldBound g padding = inr b ↔
  ∃ min max,
    metaMap g !! META_FILE_BBOX_MIN = Some (Vec3IMetadata min) ∧
    metaMap g !! META_FILE_BBOX_MAX = Some (Vec3IMetadata max) ∧
    let offset := double_of_float padding in
    let world :=
      indexToWorld g
        (mkBBox
           (mkVec3 (double_sub (double_of_int (vx min)) offset)
                   (double_sub (double_of_int (vy min)) offset)
                   (double_sub (double_of_int (vz min)) offset))
           (mkVec3 (double_add (double_of_int (vx max)) offset)
                   (double_add (double_of_int (vy max)) offset)
                   (double_add (double_of_int (vz max)) offset))) in
    b = mkBBox (Vec3_map float_of_double (bbmin world))
               (Vec3_map float_of_double (bbmax world)).
Proof.
  unfold worldBound, metaValue_Vec3i.
  destruct (metaMap g !! META_FILE_BBOX_MIN) as [[| | |min|]|];
    try (split; [done|by intros (? & ? & ? & _)]).
  destruct (metaMap g !! META_FILE_BBOX_MAX) as [[| | |max|]|];
    try (split; [done|by intros (? & ? & _ & ? & _)]).
  split.
  - intros [= <-]. by exists min, max.
  - by intros (? & ? & [= <-] & [= <-] & ->).
Qed.

Lemma worldBound_missing g padding :
  metaMap g !! META_FILE_BBOX_MIN = None ∨
  metaMap g !! META_FILE_BBOX_MAX = None →
  ∃ e, worldBound g padding = inl e.
Proof.
  destruct (worldBound g padding) as [e|b] eqn:Hb; [by exists e|].
  apply worldBound_reads_the_metadata in Hb as (min & max & Hmin & Hmax & _).
  intros [Hn|Hn]; congruence.
Qed.

(** C5: [bound()] is the union of the world-space boxes of the grids: it
    starts from the empty box and extends it by the box of every grid, which
    gives the least box that holds them all.  The box of a grid is read from
    its index-space min and max metadata, padded by half a voxel on each side
    and taken through the index-to-world transform of the grid.  A grid
    without this metadata makes [bound] throw, with no box returned in its
    place.  Appending a grid whose box lies inside the union leaves
    [bound()] as it was. *)
Theorem bound_is_the_union s gs :
  deref_all (m_grids s) s = Ok gs s →
  (∀ g b,
     worldBound g float_half = inr b ↔
     ∃ min max,
       metaMap g !! META_FILE_BBOX_MIN = Some (Vec3IMetadata min) ∧
       metaMap g !! META_FILE_BBOX_MAX = Some (Vec3IMetadata max) ∧
       let offset := double_of_float float_half in
       let world :=
         indexToWorld g
           (mkBBox
              (mkVec3 (double_sub (double_of_int (vx min)) offset)
                      (double_sub (double_of_int (vy min)) offset)
                      (double_sub (double_of_int (vz min)) offset))
              (mkVec3 (double_add (double_of_int (vx max)) offset)
                      (double_add (double_of_int (vy max)) offset)
                      (double_add (double_of_int (vz max)) offset))) in
       b = mkBBox (Vec3_map float_of_double (bbmin world))
                  (Vec3_map float_of_double (bbmax world))) ∧
  (∀ boxes,
     Forall2 (fun g b => worldBound g float_half = inr b) gs boxes →
     ∃ U, bound s = Ok U s ∧
          U = fold_left extendBy boxes Box_empty ∧
          (∀ V, inside Box_empty V → (∀ b, b ∈ boxes → inside b V) →
                inside U V) ∧
          (float_order →
           inside Box_empty U ∧ ∀ b, b ∈ boxes → inside b U)) ∧
  (∀ g, g ∈ gs →
        metaMap g !! META_FILE_BBOX_MIN = None ∨
        metaMap g !! META_FILE_BBOX_MAX = None →
        ∃ e, bound s = Throw e s) ∧
  (∀ U a g b,
     bound s = Ok U s →
     heap s !! a = Some g →
     worldBound g float_half = inr b →
     inside b U →
     bound (set_m_grids (m_grids s ++ [a]) s)
     = Ok U (set_m_grids (m_grids s ++ [a]) s)).
Proof.
  intros [_ Hres]%deref_all_resolves.
  split; [intros g b; apply worldBound_reads_the_metadata|].
  split; [|split].
  - intros boxes Hboxes. exists (fold_left extendBy boxes Box_empty).
    split; [unfold bound; run; by apply (bound_loop_boxes _ _ gs)|].
    split; [done|]. split.
    + intros V HV Hall. by apply fold_extendBy_least.
    + intros Hord. by apply fold_extendBy_upper.
  - intros g Hin Hmissing.
    destruct (worldBound_missing g float_half Hmissing) as [e He].
    unfold bound. run. apply (bound_loop_throws _ _ gs); [done|].
    by exists g, e.
  - intros U a g b Hbound Ha Hb Hinside.
    unfold bound in Hbound. run.
    apply (bound_loop_Ok _ _ gs) in Hbound as (boxes & Hboxes & ->); [|done].
    unfold bound. run.
    rewrite (bound_loop_boxes _ _ (gs ++ [g]) (boxes ++ [b])).
    + rewrite fold_left_app. simpl. by rewrite extendBy_inside.
    + apply Forall2_app; [done|by repeat constructor].
    + apply Forall2_app; [done|by repeat constructor].
Qed.

(** ** More of [findGrid], [removeGrid], [insertGrid] *)

Lemma first_index_Some_first name (names : list string) i :
  first_index name names = Some i →
  names !! i = Some name ∧ ∀ j, (j < i)%nat → names !! j ≠ Some name.
Proof.
  unfold first_index. intros ([j n] & Hfind & ->)%fmap_Some.
  apply list_find_Some in Hfind as (Hj & -> & Hfirst). simpl.
  split; [done|]. intros k Hk Hlook. by apply (Hfirst k name).
Qed.

Lemma findGrid_loop_heap s1 s2 name l :
  heap s1 = heap s2 →
  returned (findGrid_loop name l s1) = returned (findGrid_loop name l s2).
Proof.
  intros Hheap. induction l as [|a l IH]; [done|].
  simpl. unfold mbind, M_bind, deref. rewrite Hheap.
  destruct (heap s2 !! a) as [g|]; [|done].
  by destruct (decide (getName g = name)).
Qed.

Lemma removeGrid_loop_Ok s name l : ∀ l' s',
  removeGrid_loop name l s = Ok l' s' → s' = s.
Proof.
  induction l as [|a l IH]; intros l' s'; simpl.
  - run. by intros [= _ <-].
  - run. destruct (deref a s) as [g s1| |] eqn:Ha; try done.
    apply deref_Ok in Ha as [-> _].
    destruct (decide (getName g = name)); [by intros [= _ <-]|].
    destruct (removeGrid_loop name l s) as [r s2| |] eqn:Hl; try done.
    rewrite (IH _ _ eq_refl). by intros [= _ <-].
Qed.

Lemma findGrid_loop_removed s name name' l : ∀ l' s',
  name ≠ name' →
  removeGrid_loop name l s = Ok l' s' →
  findGrid_loop name' l' s = findGrid_loop name' l s.
Proof.
  induction l as [|a l IH]; intros l' s' Hne; simpl.
  - run. by intros [= <- _].
  - run. destruct (deref a s) as [g s1| |] eqn:Ha; try done.
    apply deref_Ok in Ha as [-> Ha].
    destruct (decide (getName g = name)) as [Hg|Hg].
    + intros [= <- _]. rewrite decide_False by congruence. done.
    + destruct (removeGrid_loop name l s) as [r s2| |] eqn:Hl; try done.
      intros [= <- _]. simpl. unfold mbind, M_bind.
      rewrite (deref_Some _ _ _ Ha).
      destruct (decide (getName g = name')); [done|].
      by apply (IH _ s2).
Qed.

Lemma findGrid_loop_snoc s name' l gs a g :
  resolves (heap s) l gs → heap s !! a = Some g → getName g ≠ name' →
  findGrid_loop name' (l ++ [a]) s = findGrid_loop name' l s.
Proof.
  intros Hres Ha Hne.
  induction Hres as [|a0 g0 l gs Ha0 _ IH]; simpl.
  - rewrite (bind_deref _ _ _ _ Ha). by rewrite decide_False.
  - rewrite !(bind_deref _ _ _ _ Ha0).
    by destruct (decide (getName g0 = name')).
Qed.

(** X1: [findGrid( name )] changes nothing and returns the first grid of
    that name in the collection: the grid it returns has that name and no
    grid before it has; it returns null exactly when no grid has the name. *)
Theorem findGrid_returns_the_first_of_that_name s names name :
  gridNames s = Ok names s →
  ∃ r, findGrid name s = Ok r s ∧
       (r = None ↔ name ∉ names) ∧
       (∀ a, r = Some a →
          ∃ i g, m_grids s !! i = Some a ∧ heap s !! a = Some g ∧
                 getName g = name ∧
                 ∀ j, (j < i)%nat → names !! j ≠ Some name).
Proof.
  intros (_ & gs & Hres & ->)%gridNames_Ok.
  rewrite (findGrid_resolves _ gs) by done.
  destruct (first_index name (getName <$> gs)) as [i|] eqn:Hi; simpl.
  - pose proof (first_index_Some_first _ _ _ Hi) as [Hlook Hfirst].
    apply list_lookup_fmap_Some in Hlook as (g & Hname & Hg).
    destruct (Forall2_lookup_r _ _ _ _ _ Hres Hg) as (a & Ha & Hheap).
    exists (Some a). rewrite Ha. split; [done|]. split.
    + split; [done|]. intros Hn. destruct Hn.
      apply list_elem_of_fmap. exists g. split; [done|].
      by apply list_elem_of_lookup_2 in Hg.
    + intros a' [= <-]. by exists i, g.
  - exists None. split; [done|]. split; [|done].
    split; [intros _; by apply first_index_None|done].
Qed.

(** X2: [removeGrid( name )] with a name that is present erases one grid,
    the first of that name: the other grids stay where they are, in order,
    and no grid is touched.  The name is still in the collection afterwards
    exactly when a later grid has it too. *)
Theorem removeGrid_erases_the_first_of_that_name s names name i :
  gridNames s = Ok names s →
  first_index name names = Some i →
  ∃ s', removeGrid name s = Ok tt s' ∧
        m_grids s' = delete i (m_grids s) ∧
        heap s' = heap s ∧
        S (length (m_grids s')) = length (m_grids s) ∧
        gridNames s' = Ok (delete i names) s' ∧
        (name ∈ delete i names ↔
         ∃ j, (i < j)%nat ∧ names !! j = Some name).
Proof.
  intros (_ & gs & Hres & ->)%gridNames_Ok Hi.
  pose proof (first_index_Some_first _ _ _ Hi) as [Hlook Hfirst].
  pose proof (first_index_Some _ _ _ Hi) as [_ Hlt].
  pose proof (Forall2_length _ _ _ Hres) as Hlen.
  rewrite length_fmap in Hlt.
  eexists. split; [by apply (removeGrid_resolves _ gs)|].
  rewrite Hi. simpl. split; [done|]. split; [done|]. split; [|split].
  - rewrite length_delete by (apply lookup_lt_is_Some_2; lia). lia.
  - rewrite (gridNames_resolves _ (delete i gs))
      by by apply Forall2_delete.
    by rewrite list_fmap_delete.
  - rewrite list_elem_of_lookup. split.
    + intros [k Hk]. destruct (decide (k < i)%nat) as [Hki|Hki].
      * rewrite list_lookup_delete_lt in Hk by done. by destruct (Hfirst k).
      * rewrite list_lookup_delete_ge in Hk by lia. exists (S k).
        split; [lia|done].
    + intros (j & Hj & Hname). destruct j as [|j]; [lia|].
      exists j. rewrite list_lookup_delete_ge by lia. done.
Qed.

(** X3: after [removeGrid( name )] on a collection with distinct names
    [findGrid( name )] returns null, and [findGrid] of any other name
    returns what it returned before. *)
Theorem removeGrid_then_findGrid s names name name' :
  gridNames s = Ok names s →
  (NoDup names →
   returned ((removeGrid name;; findGrid name) s) = Some None) ∧
  (name' ≠ name →
   returned ((removeGrid name;; findGrid name') s)
   = returned (findGrid name' s)).
Proof.
  intros (_ & gs & Hres & ->)%gridNames_Ok.
  pose proof (removeGrid_resolves s gs name Hres) as Hrun.
  pose proof (removeGrid_loop_resolves s _ gs name Hres) as Hloop.
  split.
  - intros Hnodup. unfold mbind, M_bind at 1. rewrite Hrun.
    rewrite (findGrid_resolves _
               (match first_index name (getName <$> gs) with
                | Some i => delete i gs | None => gs end))
      by by apply resolves_remove.
    rewrite fmap_remove.
    destruct (first_index name (getName <$> gs)) as [i|] eqn:Hi.
    + apply first_index_Some in Hi as [Hi _].
      pose proof (not_elem_of_delete_NoDup _ _ _ Hnodup Hi) as Hn.
      apply first_index_None in Hn. by rewrite Hn.
    + by rewrite Hi.
  - intros Hne. unfold mbind, M_bind at 1. rewrite Hrun.
    unfold findGrid. run.
    rewrite (findGrid_loop_heap _ s) by done.
    by rewrite (findGrid_loop_removed s name name' _ _ _ (not_eq_sym Hne) Hloop).
Qed.

(** X4: [insertGrid( grid )] leaves the grids of the other names where
    [findGrid] finds them: for a name that is not the name of [grid],
    [findGrid] returns after the insertion what it returned before. *)
Theorem insertGrid_keeps_the_other_names s names a g name' :
  gridNames s = Ok names s →
  heap s !! a = Some g →
  name' ≠ getName g →
  returned ((insertGrid (Some a);; findGrid name') s)
  = returned (findGrid name' s).
Proof.
  intros (_ & gs & Hres & ->)%gridNames_Ok Ha Hne.
  pose proof (removeGrid_loop_resolves s _ gs (getName g) Hres) as Hloop.
  unfold mbind, M_bind at 1.
  rewrite (insertGrid_resolves _ gs _ g) by done.
  unfold findGrid. run.
  rewrite (findGrid_loop_heap _ s) by done.
  rewrite (findGrid_loop_snoc s name' _
             (match first_index (getName g) (getName <$> gs) with
              | Some i => delete i gs | None => gs end) a g);
    [|by apply resolves_remove|done|done].
  by rewrite (findGrid_loop_removed s (getName g) name' _ _ _
                (not_eq_sym Hne) Hloop).
Qed.

(** X5: [insertGrid( grid )] with a name that is not present appends the
    grid: the collection has one grid more, [gridNames] ends with the new
    name, and [findGrid] of that name returns the grid. *)
Theorem insertGrid_of_a_new_name s names a g :
  gridNames s = Ok names s →
  heap s !! a = Some g →
  getName g ∉ names →
  let s' := set_m_grids (m_grids s ++ [a]) s in
  insertGrid (Some a) s = Ok tt s' ∧
  gridNames s' = Ok (names ++ [getName g]) s' ∧
  findGrid (getName g) s' = Ok (Some a) s'.
Proof.
  intros (_ & gs & Hres & ->)%gridNames_Ok Ha Hn s'.
  assert (Hres' : resolves (heap s') (m_grids s') (gs ++ [g])).
  { apply Forall2_app; [done|by repeat constructor]. }
  split; [|split].
  - rewrite (insertGrid_resolves _ gs _ g) by done.
    apply first_index_None in Hn. by rewrite Hn.
  - rewrite (gridNames_resolves _ (gs ++ [g])) by done.
    by rewrite fmap_app.
  - rewrite (findGrid_resolves _ (gs ++ [g])) by done.
    rewrite fmap_app. simpl. rewrite first_index_snoc by done. simpl.
    rewrite list_lookup_middle; [done|].
    by rewrite length_fmap, (Forall2_length _ _ _ Hres).
Qed.

(** X6: on a collection with distinct names, inserting a grid twice is
    inserting it once. *)
Theorem insertGrid_twice s names a g :
  gridNames s = Ok names s →
  NoDup names →
  heap s !! a = Some g →
  (insertGrid (Some a);; insertGrid (Some a)) s = insertGrid (Some a) s.
Proof.
  intros (_ & gs & Hres & ->)%gridNames_Ok Hnodup Ha.
  unfold mbind, M_bind at 1.
  rewrite (insertGrid_resolves _ gs _ g) by done.
  set (l0 := match first_index (getName g) (getName <$> gs) with
             | Some i => delete i (m_grids s) | None => m_grids s end).
  set (gs0 := match first_index (getName g) (getName <$> gs) with
              | Some i => delete i gs | None => gs end).
  assert (Hres0 : resolves (heap s) l0 gs0) by by apply resolves_remove.
  assert (Hn : getName g ∉ getName <$> gs0).
  { pose proof (NoDup_replace _ (getName g) Hnodup) as Hnd.
    rewrite <- fmap_remove in Hnd. fold gs0 in Hnd.
    apply NoDup_app in Hnd as (_ & Hnot & _).
    intros Hin. apply (Hnot _ Hin). by left. }
  rewrite (insertGrid_resolves (set_m_grids (l0 ++ [a]) s) (gs0 ++ [g]) a g);
    [|apply Forall2_app; [done|by repeat constructor]|done].
  simpl. rewrite fmap_app. simpl. rewrite first_index_snoc by done.
  rewrite length_fmap, <- (Forall2_length _ _ _ Hres0).
  by rewrite (delete_middle l0 [] a), app_nil_r.
Qed.

(** X7: [insertGrid] of a grid whose name is not present, followed by
    [removeGrid] of that name, gives the state back. *)
Theorem insertGrid_then_removeGrid s names a g :
  gridNames s = Ok names s →
  heap s !! a = Some g →
  getName g ∉ names →
  (insertGrid (Some a);; removeGrid (getName g)) s = Ok tt s.
Proof.
  intros (_ & gs & Hres & ->)%gridNames_Ok Ha Hn.
  unfold mbind, M_bind at 1.
  rewrite (insertGrid_resolves _ gs _ g) by done.
  pose proof Hn as Hnone. apply first_index_None in Hnone. rewrite Hnone.
  rewrite (removeGrid_resolves _ (gs ++ [g]));
    [|apply Forall2_app; [done|by repeat constructor]].
  simpl. rewrite fmap_app. simpl. rewrite first_index_snoc by done.
  rewrite length_fmap, <- (Forall2_length _ _ _ Hres).
  rewrite (delete_middle (m_grids s) [] a), app_nil_r.
  by destruct s.
Qed.

(** ** How [insertGrid] and [copyFrom] go with [hash], [bound], [isEqualTo] *)

Lemma bound_loop_throws_at_the_end s l gs a g e : ∀ acc,
  resolves (heap s) l gs →
  Forall (fun g => ∃ b, worldBound g float_half = inr b) gs →
  heap s !! a = Some g →
  worldBound g float_half = inl e →
  bound_loop (l ++ [a]) acc s = Throw e s.
Proof.
  intros acc Hres. revert acc.
  induction Hres as [|a0 g0 l gs Ha0 _ IH]; intros acc Hall Ha He; simpl.
  - rewrite (bind_deref _ _ _ _ Ha), He. done.
  - apply Forall_cons in Hall as [[b Hb] Hall].
    rewrite (bind_deref _ _ _ _ Ha0), Hb. run. by apply IH.
Qed.

(** X8: after [insertGrid] of a grid whose name is not present, [hash]
    gives the hash of before with the digest of the grid appended, and
    [bound] gives the box of before extended by the box of the grid; when
    the grid lacks the metadata of its box, [bound] throws from then on. *)
Theorem insertGrid_of_a_new_name_extends_hash_and_bound s names a g :
  gridNames s = Ok names s →
  heap s !! a = Some g →
  getName g ∉ names →
  (∀ (h hv : MurmurHash),
     hash h s = Ok hv s →
     returned ((insertGrid (Some a);; hash h) s)
     = Some (MurmurHash_appendHash hv (sink_hash g))) ∧
  (∀ U b,
     bound s = Ok U s → worldBound g float_half = inr b →
     returned ((insertGrid (Some a);; bound) s) = Some (extendBy U b)) ∧
  (∀ U e,
     bound s = Ok U s → worldBound g float_half = inl e →
     ∃ s', (insertGrid (Some a);; bound) s = Throw e s').
Proof.
  intros (_ & gs & Hres & ->)%gridNames_Ok Ha Hn.
  assert (Hrun : insertGrid (Some a) s
                 = Ok tt (set_m_grids (m_grids s ++ [a]) s)).
  { rewrite (insertGrid_resolves _ gs _ g) by done.
    apply first_index_None in Hn. by rewrite Hn. }
  assert (Hres' : resolves (heap s) (m_grids s ++ [a]) (gs ++ [g])).
  { apply Forall2_app; [done|by repeat constructor]. }
  split; [|split].
  - intros h hv Hhash. rewrite (hash_resolves s gs h Hres) in Hhash.
    injection Hhash as <-.
    unfold mbind, M_bind at 1. rewrite Hrun.
    rewrite (hash_resolves _ (gs ++ [g])) by done. simpl.
    by rewrite fmap_app, fold_left_app.
  - intros U b Hbound Hb. unfold bound, mbind, M_bind, get in Hbound.
    apply (bound_loop_Ok _ _ gs) in Hbound as (boxes & Hboxes & ->); [|done].
    unfold mbind, M_bind at 1. rewrite Hrun. unfold bound. run.
    rewrite (bound_loop_boxes _ _ (gs ++ [g]) (boxes ++ [b]));
      [|done|apply Forall2_app; [done|by repeat constructor]].
    simpl. by rewrite fold_left_app.
  - intros U e Hbound He. unfold bound, mbind, M_bind, get in Hbound.
    apply (bound_loop_Ok _ _ gs) in Hbound as (boxes & Hboxes & _); [|done].
    unfold mbind, M_bind at 1. rewrite Hrun. unfold bound. run.
    eexists. apply (bound_loop_throws_at_the_end _ _ gs _ g); [done| |done..].
    clear -Hboxes. induction Hboxes; constructor; eauto.
Qed.

(** X9: the deep copies are new grid objects, and [isEqualTo] compares
    pointers: after [copyFrom] of a collection that is not empty, the source
    is not equal to the object that was copied into, whatever the base class
    answers. *)
Theorem copyFrom_result_is_not_equal_to_its_source
    s p grids gs (context : CopyContext) s' :
  resolves (heap s) grids gs →
  grids ≠ [] →
  copyFrom (aVDBObject p grids) context s = Ok tt s' →
  isEqualTo (aVDBObject p grids) s' = false.
Proof.
  intros Hres Hne Hrun.
  destruct (copyFrom_VDBObject s p grids gs context Hres)
    as (copies & h' & Hrun' & _ & Hcopies & _ & Hfresh).
  rewrite Hrun' in Hrun. injection Hrun as <-.
  apply not_true_is_false. intros (_ & p' & Heq)%isEqualTo_true_iff.
  injection Heq as _ Heq. simpl in Heq.
  pose proof (Forall2_length _ _ _ Hres) as Hlen.
  pose proof (Forall2_length _ _ _ Hcopies) as Hlen'.
  rewrite length_fmap in Hlen'.
  assert (Hlens : length grids = (length (m_grids s) + length copies)%nat)
    by by rewrite Heq, length_app.
  destruct (m_grids s) as [|a0 l0]; [|simpl in Hlens; lia].
  simpl in Heq. subst copies.
  destruct grids as [|c grids]; [done|].
  apply Forall2_cons_inv_l in Hres as (g & gs' & Hc & _ & _).
  rewrite (Hfresh c) in Hc; [done|by left].
Qed.

Lemma copyFrom_gridNames s names p grids gs (context : CopyContext) :
  deepCopy_keeps_name →
  gridNames s = Ok names s →
  resolves (heap s) grids gs →
  ∃ s', copyFrom (aVDBObject p grids) context s = Ok tt s' ∧
        gridNames s' = Ok (names ++ (getName <$> gs)) s' ∧
        heap s ⊆ heap s'.
Proof.
  intros Hname (_ & gs0 & Hres0 & ->)%gridNames_Ok Hres.
  destruct (copyFrom_VDBObject s p grids gs context Hres)
    as (copies & h' & Hrun & Hsub & Hcopies & _ & _).
  eexists. split; [exact Hrun|]. split; [|done].
  rewrite (gridNames_resolves _ (gs0 ++ (deepCopyGrid <$> gs))).
  - rewrite fmap_app, <- list_fmap_compose. do 2 f_equal.
    apply list_fmap_ext. intros _ g _. apply Hname.
  - simpl. apply Forall2_app; [by apply (resolves_weaken (heap s))|done].
Qed.

(** X10: when a deep copy keeps the name of the grid, [copyFrom] of a
    [VDBObject] puts the names of the source, in their order, behind the
    names that were there. *)
Theorem copyFrom_appends_the_names
    s names p grids gs (context : CopyContext) :
  deepCopy_keeps_name →
  gridNames s = Ok names s →
  resolves (heap s) grids gs →
  ∃ s', copyFrom (aVDBObject p grids) context s = Ok tt s' ∧
        gridNames s' = Ok (names ++ (getName <$> gs)) s'.
Proof.
  intros Hname Hnames Hres.
  destruct (copyFrom_gridNames s names p grids gs context Hname Hnames Hres)
    as (s' & Hrun & Hnames' & _).
  by exists s'.
Qed.

(** X13: [copyFrom] does not clear the target: copying one source that is
    not empty twice into an object leaves every name of the source twice in
    the collection (when a deep copy keeps the name of the grid). *)
Theorem copyFrom_twice_duplicates_the_names
    s names p grids gs (context context' : CopyContext) :
  deepCopy_keeps_name →
  gridNames s = Ok names s →
  resolves (heap s) grids gs →
  grids ≠ [] →
  returned ((copyFrom (aVDBObject p grids) context;;
             copyFrom (aVDBObject p grids) context';;
             gridNames) s)
  = Some (names ++ (getName <$> gs) ++ (getName <$> gs)) ∧
  ¬ NoDup (names ++ (getName <$> gs) ++ (getName <$> gs)).
Proof.
  intros Hname Hnames Hres Hne.
  destruct (copyFrom_gridNames s names p grids gs context Hname Hnames Hres)
    as (s1 & Hrun1 & Hnames1 & Hsub1).
  destruct (copyFrom_gridNames s1 _ p grids gs context' Hname Hnames1
              (resolves_weaken _ _ _ _ Hsub1 Hres))
    as (s2 & Hrun2 & Hnames2 & _).
  split.
  - unfold mbind, M_bind. rewrite Hrun1, Hrun2, Hnames2. simpl.
    by rewrite <- app_assoc.
  - destruct gs as [|g gs].
    { apply Forall2_nil_inv_r in Hres. done. }
    rewrite app_assoc. intros (_ & Hnot & _)%NoDup_app.
    apply (Hnot (getName g)).
    + apply elem_of_app. right. rewrite fmap_cons. by left.
    + rewrite fmap_cons. by left.
Qed.

Lemma first_index_app_l name (names more : list string) :
  name ∈ names → first_index name (names ++ more) = first_index name names.
Proof.
  unfold first_index. induction names as [|n names IH]; intros Hin.
  - by apply elem_of_nil in Hin.
  - simpl. destruct (decide (n = name)) as [Hn|Hn]; [done|].
    apply elem_of_cons in Hin as [Hin|Hin]; [congruence|].
    specialize (IH Hin).
    destruct (list_find _ (names ++ more)) as [[i m]|],
             (list_find _ names) as [[i' m']|]; simpl in *; congruence.
Qed.

Lemma first_index_app_r name (names more : list string) :
  name ∉ names →
  first_index name (names ++ more)
  = (fun i => (length names + i)%nat) <$> first_index name more.
Proof.
  unfold first_index. induction names as [|n names IH]; intros Hn.
  - simpl. by destruct (list_find _ more) as [[i m]|].
  - apply not_elem_of_cons in Hn as [Hne Hn]. simpl.
    rewrite decide_False by done. specialize (IH Hn).
    destruct (list_find _ (names ++ more)) as [[i m]|],
             (list_find _ more) as [[i' m']|]; simpl in *; congruence.
Qed.

(** X14: the copies go behind the grids that are there.  After [copyFrom]
    of a [VDBObject], [findGrid] of a name that was present returns the grid
    it returned before; for a name that only the source has it returns a
    grid object that did not exist before the call, not the grid of the
    source (when a deep copy keeps the name of the grid). *)
Theorem copyFrom_then_findGrid
    s names p grids gs (context : CopyContext) name :
  gridNames s = Ok names s →
  resolves (heap s) grids gs →
  (name ∈ names →
   returned ((copyFrom (aVDBObject p grids) context;; findGrid name) s)
   = returned (findGrid name s)) ∧
  (deepCopy_keeps_name → name ∉ names → name ∈ getName <$> gs →
   ∃ c, returned ((copyFrom (aVDBObject p grids) context;; findGrid name) s)
        = Some (Some c) ∧
        heap s !! c = None).
Proof.
  intros (_ & gs0 & Hres0 & ->)%gridNames_Ok Hres.
  destruct (copyFrom_VDBObject s p grids gs context Hres)
    as (copies & h' & Hrun & Hsub & Hcopies & _ & Hfresh).
  assert (Hres' : resolves h' (m_grids s ++ copies)
                    (gs0 ++ (deepCopyGrid <$> gs))).
  { apply Forall2_app; [by apply (resolves_weaken (heap s))|done]. }
  pose proof (Forall2_length _ _ _ Hres0) as Hlen.
  split.
  - intros Hin. unfold mbind, M_bind at 1. rewrite Hrun.
    rewrite (findGrid_resolves _ (gs0 ++ (deepCopyGrid <$> gs))) by done.
    rewrite (findGrid_resolves s gs0) by done. simpl.
    rewrite fmap_app, first_index_app_l by done.
    destruct (first_index name (getName <$> gs0)) as [i|] eqn:Hi; [|done].
    simpl. apply first_index_Some in Hi as [_ Hi].
    rewrite length_fmap in Hi. by rewrite lookup_app_l by lia.
  - intros Hname Hn Hin. unfold mbind, M_bind at 1. rewrite Hrun.
    rewrite (findGrid_resolves _ (gs0 ++ (deepCopyGrid <$> gs))) by done.
    simpl. rewrite fmap_app, first_index_app_r by done.
    assert (Hnames : getName <$> (deepCopyGrid <$> gs) = getName <$> gs).
    { rewrite <- list_fmap_compose. apply list_fmap_ext. intros _ g _.
      apply Hname. }
    rewrite Hnames.
    destruct (first_index_elem_of _ _ Hin) as [j Hj]. rewrite Hj. simpl.
    apply first_index_Some in Hj as [_ Hj].
    rewrite length_fmap in Hj.
    pose proof (Forall2_length _ _ _ Hcopies) as Hlen'.
    rewrite length_fmap in Hlen'.
    destruct (lookup_lt_is_Some_2 copies j ltac:(lia)) as [c Hc].
    exists c. split.
    + rewrite length_fmap, <- Hlen. rewrite lookup_app_r by lia.
      replace (length (m_grids s) + j - length (m_grids s))%nat with j by lia.
      by rewrite Hc.
    + apply Hfresh. by apply list_elem_of_lookup_2 in Hc.
Qed.

(** ** The order of the grids and [bound] *)








(** ** [memoryBuffer] and a negative estimate *)

Lemma int64_add_range a b : - 2 ^ 63 ≤ int64_add a b < 2 ^ 63.
Proof.
  unfold int64_add.
  pose proof (Z.mod_pos_bound (a + b + 2 ^ 63) (2 ^ 64) ltac:(done)). lia.
Qed.

Lemma memoryBuffer_try_range s l : ∀ t total caught s',
  - 2 ^ 63 ≤ t < 2 ^ 63 →
  memoryBuffer_try l t s = Ok (total, caught) s' →
  - 2 ^ 63 ≤ total < 2 ^ 63.
Proof.
  induction l as [|a l IH]; intros t total caught s' Ht; simpl.
  - run. by intros [= <- _ _].
  - run. destruct (deref a s) as [g s1| |] eqn:Ha; try done.
    apply deref_Ok in Ha as [-> _].
    destruct (metaValue_int64 g "file_mem_bytes") as [e|v].
    + run. by intros [= <- _ _].
    + apply IH. apply int64_add_range.
Qed.

(** X12: [reserve] is outside the [try] block and takes a [size_t]: when
    the footprints that were read add up to a negative number (and
    [max_size()] is below 2^63), [memoryBuffer] throws [std::length_error]
    and returns no buffer. *)
Theorem memoryBuffer_throws_on_a_negative_estimate s total caught :
  max_size < 2 ^ 63 →
  memoryBuffer_try (m_grids s) 0 s = Ok (total, caught) s →
  total < 0 →
  ∃ s', memoryBuffer s = Throw (length_error "vector::reserve") s'.
Proof.
  intros Hmax Htry Hneg.
  assert (Hzero : - 2 ^ 63 ≤ 0 < 2 ^ 63) by done.
  pose proof (memoryBuffer_try_range s (m_grids s) 0 total caught s Hzero Htry)
    as Hrange.
  apply (memoryBuffer_refused s total caught Htry).
  unfold to_size_t.
  rewrite <- (Z.mod_add total 1 (2 ^ 64)) by done.
  rewrite Z.mod_small; lia.
Qed.

End Properties.

(** * The reference implementation: laws, runs, and inputs on which the
    claims were tried *)

Module Examples.

Import Reference.

#[local] Existing Instances floating openvdb iecore iostreams platform.

Lemma reference_float_order : float_order.
Proof.
  split; [|split].
  - intros x. apply Z.ltb_irrefl.
  - intros x y z Hxy%Z.ltb_lt Hyz%Z.ltb_lt. apply Z.ltb_lt.
    by apply (Z.lt_trans x y z).
  - intros x y z Hxz%Z.ltb_lt. rewrite !Z.ltb_lt. lia.
Qed.

Lemma reference_collision_free : collision_free.
Proof. intros h h' d d' Heq. by injection Heq. Qed.

Lemma reference_deepCopy_writes_the_same : deepCopy_writes_the_same.
Proof. by intros g. Qed.

Lemma reference_base_copy_keeps_hash : base_copy_keeps_hash.
Proof. by intros p l context b x h. Qed.

(** With a base class whose [isNotEqualTo] negates an equality that holds
    between two [VDBObject]s, no [VDBObject] is equal to itself. *)
Lemma isEqualTo_not_reflexive_here (l : list addr) :
  isEqualTo (this (collection l)) (collection l) = false.
Proof. done. Qed.

(** C1, counterexample: two collections hold one grid each, with the same
    name, content and transform, in two grid objects (a grid and its copy).
    [isEqualTo] is false, whatever [isNotEqualTo] of the base class answers. *)
Lemma isEqualTo_rejects_identical_content :
  grids !! 1%positive = Some density ∧
  grids !! 4%positive = Some density ∧
  @isEqualTo _ _ (iecore_answering true)
    (aVDBObject tt [4%positive]) (collection_answering true [1%positive])
  = false ∧
  @isEqualTo _ _ (iecore_answering false)
    (aVDBObject tt [4%positive]) (collection_answering false [1%positive])
  = false.
Proof. by vm_compute. Qed.

Lemma isEqualTo_same_pointers_witness :
  @isEqualTo _ _ (iecore_answering true)
    (aVDBObject tt [4%positive]) (collection_answering true [1%positive])
  = false.
Proof.
  apply (proj2 (proj2 (proj2
           (@isEqualTo_same_pointers _ _ (iecore_answering true)
              (collection_answering true [1%positive])
              (aVDBObject tt [4%positive])))) tt [4%positive] 0%nat eq_refl).
  simpl. discriminate.
Defined.

(** C2, counterexample: [density] and [heat] are two grids with two names;
    they write the same topology, buffers and transform.  The hash of the
    collection is the same in both orders. *)
Lemma hash_blind_to_a_swap :
  density ≠ heat ∧
  [2; 1]%positive ≡ₚ [1; 2]%positive ∧
  is_Some (returned (hash Fresh (collection [1; 2]%positive))) ∧
  returned (hash Fresh (collection [2; 1]%positive))
  = returned (hash Fresh (collection [1; 2]%positive)).
Proof.
  split; [discriminate|]. split; [apply perm_swap|].
  split; [by eexists|by vm_compute].
Qed.

Lemma hash_follows_the_digests_witness :
  (returned (hash Fresh (collection [3; 1]%positive))
   ≠ returned (hash Fresh (collection [1; 3]%positive))) ∧
  ∃ target',
    copyFrom (this (collection [1; 3]%positive)) tt (collection []) = Ok tt target' ∧
    returned (hash Fresh target')
    = returned (hash Fresh (collection [1; 3]%positive)).
Proof.
  destruct (hash_follows_the_digests (collection [1; 3]%positive)
              [density; smoke] Fresh eq_refl) as (Hhash & Horder & Hcopy).
  split.
  - intros Heq.
    pose proof (Horder reference_collision_free [3; 1]%positive [smoke; density]
                  _ _ (perm_swap _ _ _) eq_refl eq_refl eq_refl) as [Hto _].
    symmetry in Heq. pose proof (Hto (inj Some _ _ Heq)). discriminate.
  - exact (Hcopy reference_deepCopy_writes_the_same
             reference_base_copy_keeps_hash (collection []) tt eq_refl eq_refl).
Defined.

(** C3, counterexample: [insertGrid] puts a grid named "density" into a
    new collection; [copyFrom] of a collection that holds another grid of
    that name then leaves two grids named "density". *)
Lemma copyFrom_duplicates_a_name :
  returned ((insertGrid (Some 1%positive);;
             copyFrom (aVDBObject tt [4%positive]) tt;;
             gridNames) (collection []))
  = Some ["density"; "density"] ∧
  ¬ NoDup ["density"; "density"].
Proof.
  split; [vm_compute; reflexivity|].
  intros Hnodup. apply NoDup_cons in Hnodup as [Hin _]. apply Hin. by left.
Qed.

Lemma insertGrid_removeGrid_keep_names_distinct_witness :
  (∃ names, gridNames (collection [1%positive]) = Ok names (collection [1%positive])
            ∧ NoDup names) ∧
  (∃ s', insertGrid (Some 4%positive) (collection [1; 3]%positive) = Ok tt s' ∧
         length (m_grids s') = length (m_grids (collection [1; 3]%positive)) ∧
         findGrid "density" s' = Ok (Some 4%positive) s') ∧
  removeGrid "fire" (collection [1; 3]%positive)
  = Ok tt (collection [1; 3]%positive).
Proof.
  destruct insertGrid_removeGrid_keep_names_distinct
    as (Hreach & Hinsert & Hremove).
  split; [|split].
  - apply Hreach.
    apply (reachable_insertGrid (collection []) (Some 1%positive));
      [apply reachable_new|done].
  - apply (Hinsert (collection [1; 3]%positive) ["density"; "smoke"]
             4%positive density eq_refl).
    + apply (bool_decide_unpack _). by vm_compute.
    + done.
    + by left.
  - apply (Hremove (collection [1; 3]%positive) ["density"; "smoke"] "fire" eq_refl).
    apply (bool_decide_unpack _). by vm_compute.
Defined.

Lemma copyFrom_appends_witness :
  ∃ copies h',
    copyFrom (aVDBObject tt [3%positive]) tt (collection [1%positive])
    = Ok tt (mkState h' tt ([1%positive] ++ copies) [] ["copyFrom"]) ∧
    grids ⊆ h' ∧
    resolves h' copies [deepCopyGrid smoke] ∧
    NoDup copies ∧
    (∀ c, c ∈ copies → grids !! c = None).
Proof.
  apply (proj1 (copyFrom_appends (collection [1%positive])
                  (aVDBObject tt [3%positive]) tt) tt [3%positive] [smoke] eq_refl).
  by repeat constructor.
Defined.

Lemma bound_is_the_union_witness :
  (∃ U, bound (collection [1; 3]%positive) = Ok U (collection [1; 3]%positive) ∧
        inside Box_empty U ∧
        inside (mkBBox (mkVec3 (-1) (-1) (-1)) (mkVec3 7 7 7)) U ∧
        inside (mkBBox (mkVec3 2 2 2) (mkVec3 10 10 10)) U) ∧
  (∃ e, bound (collection [1; 5]%positive) = Throw e (collection [1; 5]%positive)) ∧
  bound (collection [1; 3; 2]%positive)
  = Ok (mkBBox (mkVec3 (-1) (-1) (-1)) (mkVec3 10 10 10))
       (collection [1; 3; 2]%positive).
Proof.
  split; [|split].
  - destruct (bound_is_the_union (collection [1; 3]%positive) [density; smoke]
                eq_refl) as (_ & Hunion & _ & _).
    destruct (Hunion [mkBBox (mkVec3 (-1) (-1) (-1)) (mkVec3 7 7 7);
                      mkBBox (mkVec3 2 2 2) (mkVec3 10 10 10)])
      as (U & Hbound & _ & _ & Hupper).
    { by repeat constructor. }
    destruct (Hupper reference_float_order) as [Hempty Hall].
    exists U. split; [done|]. split; [done|].
    split; apply Hall; [by left|by right; left].
  - destruct (bound_is_the_union (collection [1; 5]%positive) [density; mist]
                eq_refl) as (_ & _ & Hthrow & _).
    apply (Hthrow mist); [by right; left|by left].
  - destruct (bound_is_the_union (collection [1; 3]%positive) [density; smoke]
                eq_refl) as (_ & _ & _ & Hsame).
    apply (Hsame _ 2%positive heat
             (mkBBox (mkVec3 (-1) (-1) (-1)) (mkVec3 7 7 7)));
      [done..|]. by vm_compute.
Defined.

Lemma save_load_not_implemented_witness :
  save tt (collection [1%positive])
  = Throw (NotImplementedException "VDBObject::save")
      (set_host ["save"] (collection [1%positive])) ∧
  load tt (collection [1%positive])
  = Throw (NotImplementedException "VDBObject::load")
      (set_host ["load"] (collection [1%positive])).
Proof.
  destruct (save_load_not_implemented (collection [1%positive]))
    as [Hsave Hload].
  split.
  - apply (proj1 (proj2 (Hsave tt)) ["save"] eq_refl).
  - apply (proj1 (proj2 (Hload tt)) (tt, ["load"]) eq_refl).
Defined.

(** C7, counterexample: the grid "smoke" has an entry "tag" whose type tag
    is "string" and whose object is not a typed string.  The mapping has no
    "tag", and the only warning is the one for the entry of type "float". *)
Lemma metadata_skips_a_failed_cast_silently :
  metaMap smoke !! "tag" = Some (OtherMetadata "string" "?") ∧
  typeName (OtherMetadata "string" "?") = "string" ∧
  match metadata "smoke" (collection [3%positive]) with
  | Ok (Some members) s' =>
      members !! "tag" = None ∧
      messages s' = [msg Warning "VDBObject::metadata"
                       "'float' has unsupported metadata type: 'half'"]
  | _ => False
  end.
Proof. by vm_compute. Qed.

Lemma metadata_converts_the_typed_entries_witness :
  returned (metadata "fire" (collection [1; 3]%positive)) = Some None ∧
  ∃ g, returned (metadata "smoke" (collection [1; 3]%positive))
       = Some (Some (omap converted (metaMap (addStatsMetadata g)))).
Proof.
  destruct (metadata_converts_the_typed_entries (collection [1; 3]%positive)
              ["density"; "smoke"] "fire" eq_refl) as [Habsent _].
  destruct (metadata_converts_the_typed_entries (collection [1; 3]%positive)
              ["density"; "smoke"] "smoke" eq_refl) as [_ Hpresent].
  split.
  - rewrite Habsent; [done|]. apply (bool_decide_unpack _). by vm_compute.
  - destruct Hpresent as (a & g & _ & _ & Hrun & _); [by right; left|].
    exists g. by rewrite Hrun.
Defined.

Lemma forceRead_dereferences_findGrid_witness :
  forceRead "fire" (collection [1; 3]%positive) = Fault ∧
  ∃ a g, findGrid "smoke" (collection [1; 3]%positive)
         = Ok (Some a) (collection [1; 3]%positive) ∧
         forceRead "smoke" (collection [1; 3]%positive)
         = Ok tt (set_heap (<[a := readNonresidentBuffers g]> grids)
                    (collection [1; 3]%positive)).
Proof.
  destruct (forceRead_dereferences_findGrid (collection [1; 3]%positive)
              ["density"; "smoke"] "fire" eq_refl) as [_ Habsent].
  destruct (forceRead_dereferences_findGrid (collection [1; 3]%positive)
              ["density"; "smoke"] "smoke" eq_refl) as [Hpresent _].
  split.
  - apply Habsent. apply (bool_decide_unpack _). by vm_compute.
  - destruct Hpresent as (a & g & Hfind & _ & _ & Hrun); [by right; left|].
    by exists a, g.
Defined.

(** C9, counterexample: "density" has a footprint of 1000 bytes and "smoke"
    has none.  The warning is logged and [reserve] is asked for 1000 bytes. *)
Lemma memoryBuffer_reserves_the_partial_sum :
  metaValue_int64 smoke "file_mem_bytes" = inl (LookupError "file_mem_bytes") ∧
  match memoryBuffer (collection [1; 3]%positive) with
  | Ok buffer s' =>
      reserved buffer = 1000 ∧
      messages s' = [msg Warning "VDBObject::memoryBuffer"
                       "Unable to estimate vdb size."]
  | _ => False
  end.
Proof. by vm_compute. Qed.

Lemma memoryBuffer_estimate_is_a_hint_witness :
  memoryBuffer (collection [1; 3]%positive)
  = Ok (mkBuffer 1000
          (concat (memoryStream_delivered (Stream_write [density; smoke]))))
       (set_messages
          [msg Warning "VDBObject::memoryBuffer" "Unable to estimate vdb size."]
          (collection [1; 3]%positive)).
Proof.
  apply (proj2 (memoryBuffer_estimate_is_a_hint (collection [1; 3]%positive)
                  [density; smoke] eq_refl)
           [density] smoke [] [1000] (LookupError "file_mem_bytes") eq_refl).
  - by repeat constructor.
  - done.
  - by vm_compute.
Defined.

(** C10, counterexample: "density" and "heat" have the same digest.
    [insertGrid] of "density" again moves the name behind "heat", and the
    hash of the collection is what it was. *)
Lemma insertGrid_reorders_and_keeps_the_hash :
  returned (gridNames (collection [1; 2]%positive)) = Some ["density"; "heat"] ∧
  returned ((insertGrid (Some 1%positive);; gridNames) (collection [1; 2]%positive))
  = Some ["heat"; "density"] ∧
  is_Some (returned (hash Fresh (collection [1; 2]%positive))) ∧
  returned ((insertGrid (Some 1%positive);; hash Fresh) (collection [1; 2]%positive))
  = returned (hash Fresh (collection [1; 2]%positive)).
Proof.
  split; [by vm_compute|]. split; [by vm_compute|].
  split; [by eexists|by vm_compute].
Qed.

Lemma insertGrid_moves_the_name_to_the_end_witness :
  ∃ s', insertGrid (Some 4%positive) (collection [1; 2; 3]%positive) = Ok tt s' ∧
        m_grids s' = [2; 3; 4]%positive ∧
        gridNames s' = Ok ["heat"; "smoke"; "density"] s' ∧
        ["heat"; "smoke"; "density"] ≠ ["density"; "heat"; "smoke"].
Proof.
  destruct (insertGrid_moves_the_name_to_the_end (collection [1; 2; 3]%positive)
              ["density"; "heat"; "smoke"] 4%positive density 0%nat
              eq_refl eq_refl eq_refl)
    as (s' & Hrun & Hgrids & Hnames & Horder & _).
  exists s'. split; [done|]. split; [done|]. split; [done|].
  apply Horder; [|simpl; lia]. apply (bool_decide_unpack _). by vm_compute.
Defined.

Lemma reference_deepCopy_keeps_name : deepCopy_keeps_name.
Proof. by intros g. Qed.


Lemma findGrid_returns_the_first_of_that_name_witness :
  ∃ r, findGrid "smoke" (collection [1; 3]%positive)
       = Ok r (collection [1; 3]%positive) ∧
       (r = None ↔ "smoke" ∉ ["density"; "smoke"]).
Proof.
  destruct (findGrid_returns_the_first_of_that_name (collection [1; 3]%positive)
              ["density"; "smoke"] "smoke" eq_refl) as (r & Hfind & Hnone & _).
  by exists r.
Defined.

Lemma removeGrid_erases_the_first_of_that_name_witness :
  ∃ s', removeGrid "density" (collection [1; 3; 4]%positive) = Ok tt s' ∧
        m_grids s' = [3; 4]%positive ∧
        gridNames s' = Ok ["smoke"; "density"] s'.
Proof.
  destruct (removeGrid_erases_the_first_of_that_name
              (collection [1; 3; 4]%positive) ["density"; "smoke"; "density"]
              "density" 0%nat eq_refl eq_refl)
    as (s' & Hrun & Hgrids & _ & _ & Hnames & _).
  by exists s'.
Defined.

Lemma removeGrid_then_findGrid_witness :
  returned ((removeGrid "density";; findGrid "density") (collection [1; 3]%positive))
  = Some None ∧
  returned ((removeGrid "density";; findGrid "smoke") (collection [1; 3]%positive))
  = returned (findGrid "smoke" (collection [1; 3]%positive)).
Proof.
  destruct (removeGrid_then_findGrid (collection [1; 3]%positive)
              ["density"; "smoke"] "density" "smoke" eq_refl) as [Hgone Hkept].
  split.
  - apply Hgone. apply (bool_decide_unpack _). by vm_compute.
  - by apply Hkept.
Defined.

Lemma insertGrid_keeps_the_other_names_witness :
  returned ((insertGrid (Some 4%positive);; findGrid "smoke")
              (collection [1; 3]%positive))
  = returned (findGrid "smoke" (collection [1; 3]%positive)).
Proof.
  by apply (insertGrid_keeps_the_other_names (collection [1; 3]%positive)
              ["density"; "smoke"] 4%positive density "smoke" eq_refl eq_refl).
Defined.

Lemma insertGrid_of_a_new_name_witness :
  insertGrid (Some 2%positive) (collection [1; 3]%positive)
  = Ok tt (collection [1; 3; 2]%positive) ∧
  gridNames (collection [1; 3; 2]%positive)
  = Ok ["density"; "smoke"; "heat"] (collection [1; 3; 2]%positive) ∧
  findGrid "heat" (collection [1; 3; 2]%positive)
  = Ok (Some 2%positive) (collection [1; 3; 2]%positive).
Proof.
  apply (insertGrid_of_a_new_name (collection [1; 3]%positive)
           ["density"; "smoke"] 2%positive heat eq_refl eq_refl).
  apply (bool_decide_unpack _). by vm_compute.
Defined.

Lemma insertGrid_twice_witness :
  (insertGrid (Some 4%positive);; insertGrid (Some 4%positive))
    (collection [1; 3]%positive)
  = insertGrid (Some 4%positive) (collection [1; 3]%positive).
Proof.
  apply (insertGrid_twice (collection [1; 3]%positive)
           ["density"; "smoke"] 4%positive density eq_refl); [|done].
  apply (bool_decide_unpack _). by vm_compute.
Defined.

Lemma insertGrid_then_removeGrid_witness :
  (insertGrid (Some 2%positive);; removeGrid "heat") (collection [1; 3]%positive)
  = Ok tt (collection [1; 3]%positive).
Proof.
  apply (insertGrid_then_removeGrid (collection [1; 3]%positive)
           ["density"; "smoke"] 2%positive heat eq_refl eq_refl).
  apply (bool_decide_unpack _). by vm_compute.
Defined.

Lemma insertGrid_of_a_new_name_extends_hash_and_bound_witness :
  returned ((insertGrid (Some 3%positive);; hash Fresh) (collection [1%positive]))
  = Some (Digest (Digest (Bytes Fresh (list_byte_of_string "VDBObject"))
                    (sink_hash density))
            (sink_hash smoke)) ∧
  returned ((insertGrid (Some 3%positive);; bound) (collection [1%positive]))
  = Some (mkBBox (mkVec3 (-1) (-1) (-1)) (mkVec3 10 10 10)) ∧
  ∃ s', (insertGrid (Some 5%positive);; bound) (collection [1%positive])
        = Throw (LookupError "file_bbox_min") s'.
Proof.
  assert (Hnew : ∀ n, n ≠ "density" → n ∉ ["density"]).
  { intros n Hn [->|Hin]%elem_of_cons; [done|]. by apply elem_of_nil in Hin. }
  destruct (insertGrid_of_a_new_name_extends_hash_and_bound
              (collection [1%positive]) ["density"] 3%positive smoke
              eq_refl eq_refl (Hnew "smoke" ltac:(done)))
    as (Hhash & Hbound & _).
  destruct (insertGrid_of_a_new_name_extends_hash_and_bound
              (collection [1%positive]) ["density"] 5%positive mist
              eq_refl eq_refl (Hnew "mist" ltac:(done)))
    as (_ & _ & Hthrow).
  split; [|split].
  - by apply Hhash.
  - by apply (Hbound (mkBBox (mkVec3 (-1) (-1) (-1)) (mkVec3 7 7 7))
                (mkBBox (mkVec3 2 2 2) (mkVec3 10 10 10))).
  - by apply (Hthrow (mkBBox (mkVec3 (-1) (-1) (-1)) (mkVec3 7 7 7))).
Defined.

Lemma copyFrom_result_is_not_equal_to_its_source_witness :
  ∃ s', copyFrom (aVDBObject tt [3%positive]) tt (collection []) = Ok tt s' ∧
        isEqualTo (aVDBObject tt [3%positive]) s' = false.
Proof.
  assert (Hres : resolves grids [3%positive] [smoke]) by by repeat constructor.
  destruct (copyFrom_VDBObject (collection []) tt [3%positive] [smoke] tt Hres)
    as (copies & h' & Hrun & _).
  eexists. split; [exact Hrun|].
  by apply (copyFrom_result_is_not_equal_to_its_source (collection []) tt
              [3%positive] [smoke] tt _ Hres).
Defined.

Lemma copyFrom_appends_the_names_witness :
  ∃ s', copyFrom (aVDBObject tt [3; 2]%positive) tt (collection [1%positive])
        = Ok tt s' ∧
        gridNames s' = Ok ["density"; "smoke"; "heat"] s'.
Proof.
  apply (copyFrom_appends_the_names (collection [1%positive]) ["density"]
           tt [3; 2]%positive [smoke; heat] tt
           reference_deepCopy_keeps_name eq_refl).
  by repeat constructor.
Defined.


Lemma memoryBuffer_throws_on_a_negative_estimate_witness :
  ∃ s', memoryBuffer (collection_with_sparse [6%positive])
        = Throw (length_error "vector::reserve") s'.
Proof.
  apply (memoryBuffer_throws_on_a_negative_estimate
           (collection_with_sparse [6%positive]) (-1) None);
    [done|reflexivity|done].
Defined.

Lemma copyFrom_twice_duplicates_the_names_witness :
  returned ((copyFrom (aVDBObject tt [3%positive]) tt;;
             copyFrom (aVDBObject tt [3%positive]) tt;;
             gridNames) (collection [1%positive]))
  = Some ["density"; "smoke"; "smoke"] ∧
  ¬ NoDup ["density"; "smoke"; "smoke"].
Proof.
  apply (copyFrom_twice_duplicates_the_names (collection [1%positive])
           ["density"] tt [3%positive] [smoke] tt tt
           reference_deepCopy_keeps_name eq_refl); [|done].
  by repeat constructor.
Defined.

Lemma copyFrom_then_findGrid_witness :
  returned ((copyFrom (aVDBObject tt [4; 3]%positive) tt;; findGrid "density")
              (collection [1%positive]))
  = returned (findGrid "density" (collection [1%positive])) ∧
  ∃ c, returned ((copyFrom (aVDBObject tt [4; 3]%positive) tt;; findGrid "smoke")
                   (collection [1%positive]))
       = Some (Some c) ∧
       grids !! c = None.
Proof.
  assert (Hres : resolves grids [4; 3]%positive [density; smoke])
    by by repeat constructor.
  split.
  - apply (proj1 (copyFrom_then_findGrid (collection [1%positive]) ["density"]
                    tt [4; 3]%positive [density; smoke] tt "density"
                    eq_refl Hres)).
    by left.
  - apply (proj2 (copyFrom_then_findGrid (collection [1%positive]) ["density"]
                    tt [4; 3]%positive [density; smoke] tt "smoke"
                    eq_refl Hres) reference_deepCopy_keeps_name).
    + apply (bool_decide_unpack _). by vm_compute.
    + by right; left.
Defined.

End Examples.
